(** * Galactic taggers: a shallow embedding of [galactic/taggers.py]

    The annotation operations of the pipeline ([tag_string],
    [detect_language], [calc_perplexity], [detect_pii],
    [detect_seo_spam], [count_tokens]) are embedded as functions over an
    explicit pipeline state, in a small state-and-exception monad.

    - The text of a row, a Python [str], is a sequence of Unicode code
      points ([list N]); the names of columns, tags, models and
      detectors are [string]s.
    - A row (a Python [dict]) is a [gmap string value].
    - Python floats are modelled by the reals: arithmetic is exact, the
      rounding of IEEE doubles is not part of the model.
    - Pretrained models, tokenizers and the entity scanner are opaque
      capabilities, collected in the record [Capabilities]. *)

From Stdlib Require Import ZArith NArith List String Ascii DecimalString.
From Stdlib Require Import Reals Lra Lia.
From stdpp Require Import base option list strings gmap.

Local Open Scope N_scope.

(** ** Text: Python [str] as a list of code points *)

(** [T s] is the text of an ASCII literal. *)
Definition T (s : string) : list N := map N_of_ascii (list_ascii_of_string s).

Definition cp_newline : N := 10.
Definition cp_space : N := 32.
Definition cp_backslash : N := 92.
Definition cp_bar : N := 124.

Module Text.

(** [a.startswith(p)] read on lists: is [p] a prefix of [s]? *)
Fixpoint starts_with (p s : list N) : bool :=
  match p, s with
  | [], _ => true
  | _ :: _, [] => false
  | a :: p', b :: s' => (a =? b) && starts_with p' s'
  end.

(** [p in s]: substring containment, scanning the start positions
    from left to right. *)
Fixpoint contains (p s : list N) : bool :=
  starts_with p s ||
  match s with
  | [] => false
  | _ :: s' => contains p s'
  end.

(** [sep.join(parts)]. *)
Fixpoint join (sep : list N) (parts : list (list N)) : list N :=
  match parts with
  | [] => []
  | [p] => p
  | p :: rest => p ++ sep ++ join sep rest
  end.

(** [s.replace(old, new)] for single characters, as the code uses it
    ([replace("\n", " ")]). *)
Definition replace_char (old new : N) (s : list N) : list N :=
  map (fun c => if c =? old then new else c) s.

(** [s.split(sep)] for a non-empty separator: [skip] counts the
    characters of a separator occurrence that are still to be
    dropped, [cur] is the current piece, reversed. *)
Fixpoint split_go (sep : list N) (skip : nat) (cur s : list N)
  : list (list N) :=
  match s with
  | [] => [rev cur]
  | c :: s' =>
      match skip with
      | S k => split_go sep k cur s'
      | O =>
          if starts_with sep s
          then rev cur :: split_go sep (Nat.pred (length sep)) [] s'
          else split_go sep O (c :: cur) s'
      end
  end.

Definition split (sep s : list N) : list (list N) := split_go sep O [] s.

(** Width of the UTF-8 encoding of one code point. *)
Definition utf8_width (c : N) : Z :=
  if c <? 128 then 1%Z
  else if c <? 2048 then 2%Z
  else if c <? 65536 then 3%Z
  else 4%Z.

(** [len(s)]: the number of characters. *)
Definition char_len (s : list N) : Z := Z.of_nat (length s).

End Text.

(** Modelled from the spec: [byte_len] is imported from
    [galactic/utils.py], which is not among the sources.  The spec
    describes it as the "byte length" helper of the Row Text Utilities,
    the number of encoded bytes of the text ("héllo" has 5 characters
    and 6 encoded bytes): the length of the UTF-8 encoding. *)
Definition byte_len (s : list N) : Z :=
  fold_right (fun c acc => (Text.utf8_width c + acc)%Z) 0%Z s.

(** ** The fragment of [re] that [tag_string] uses *)

Module Re.

(** [re._special_chars_map]: the characters that [re.escape]
    protects, [()[]{}?*+-|^$\.&~#] and the white space characters
    space, \t, \n, \r, \v, \f. *)
Definition special_chars : list N :=
  T "()[]{}?*+-|^$\.&~# " ++ [9; 10; 13; 11; 12].

Definition is_special (c : N) : bool :=
  existsb (N.eqb c) special_chars.

(** [re.escape(s)] *)
Definition escape (s : list N) : list N :=
  flat_map (fun c => if is_special c then [cp_backslash; c] else [c]) s.

(** A compiled pattern of the fragment: an alternation of literal
    strings, in the order of the alternatives. *)
Definition pattern := list (list N).

Definition push (c : N) (r : option pattern) : option pattern :=
  match r with
  | Some (alt :: alts) => Some ((c :: alt) :: alts)
  | _ => None
  end.

(** [re.compile(p)] on the fragment: a top-level [|] separates
    alternatives, a backslash followed by a special character is that
    character, any other non-special character is itself.  Patterns
    outside the fragment (operators, classes, groups) give [None];
    [tag_string] never builds one, see [compile_escaped]. *)
Fixpoint compile (p : list N) : option pattern :=
  match p with
  | [] => Some [[]]
  | c :: p' =>
      if c =? cp_bar then
        match compile p' with
        | Some alts => Some ([] :: alts)
        | None => None
        end
      else if c =? cp_backslash then
        match p' with
        | d :: p'' => if is_special d then push d (compile p'') else None
        | [] => None
        end
      else if is_special c then None
      else push c (compile p')
  end.

(** [regexp.search(s)], as a truth value: some start position, tried
    from left to right, where some alternative, tried in order,
    matches. *)
Fixpoint search (r : pattern) (s : list N) : bool :=
  existsb (fun alt => Text.starts_with alt s) r ||
  match s with
  | [] => false
  | _ :: s' => search r s'
  end.

End Re.

(** ** Values, rows and datasets *)

(** The values a row can hold.  [VObject printed] stands for a value of
    any other Python type (a list, a dict, an array ...); all the code
    does with such a value is call [str] on it, so it carries its
    printed form. *)
Inductive value : Type :=
| VStr (s : list N)
| VInt (n : Z)
| VBool (b : bool)
| VFloat (x : R)
| VNone
| VObject (printed : list N).

(** The [dtype] name the dataset library gives to a column of such
    values. *)
Definition dtype_of (v : value) : string :=
  match v with
  | VStr _ => "string"
  | VInt _ => "int64"
  | VBool _ => "bool"
  | VFloat _ => "float64"
  | VNone => "null"
  | VObject _ => "object"
  end.

(** A row ([sample]) is a Python dict from column names to values. *)
Abbreviation row := (gmap string value).

(** [self.dataset]: [features] gives each column its dtype name,
    [rows] are addressed by position. *)
Record Dataset : Type := {
  features : gmap string string;
  rows : list (gmap string value)
}.

(** [name in ds.column_names], [name in ds.features] *)
Definition has_column (ds : Dataset) (name : string) : bool :=
  bool_decide (is_Some (features ds !! name)).

(** ** Exceptions and logging *)

Inductive exn : Type :=
| ValueError (msg : string)
| KeyError (key : string)
| IndexError
| TypeError
| ReError
| LoadError (what : string).

Inductive log_record : Type :=
| LogWarning (msg : string)
| LogInfo (operation : string) (fields : list string).

(** The sum [exn + A] is a computation that returns an [A] or raises. *)
Definition bindE {A B} (m : exn + A) (k : A -> exn + B) : exn + B :=
  match m with
  | inl e => inl e
  | inr a => k a
  end.

Notation "'letE' x := m 'in' k" := (bindE m (fun x => k))
  (at level 10, x name, m at level 100, k at level 200).

(** [xs[i]] on a Python list or tuple. *)
Definition index {A} (xs : list A) (i : nat) : exn + A :=
  match nth_error xs i with
  | Some x => inr x
  | None => inl IndexError
  end.

(** [sample[field]] *)
Definition getitem (sample : gmap string value) (field : string)
  : exn + value :=
  match sample !! field with
  | Some v => inr v
  | None => inl (KeyError field)
  end.

(** The text argument of a model or tokenizer call: these reject
    anything that is not a [str]. *)
Definition as_text (v : value) : exn + list N :=
  match v with
  | VStr s => inr s
  | _ => inl TypeError
  end.

(** ** The row mapper, [Dataset.map]

    The dataset library applies the function to every row in order; the
    dict it returns is merged into the row, its keys replacing columns
    of the same name.  An exception in any row aborts the whole map.  A
    dataset without rows is returned as it is.  The new columns get the
    dtype of the values of the first row. *)

Fixpoint map_outputs (f : gmap string value -> exn + gmap string value)
  (rs : list (gmap string value)) : exn + list (gmap string value) :=
  match rs with
  | [] => inr []
  | r :: rs' =>
      letE u := f r in
      letE us := map_outputs f rs' in
      inr (u :: us)
  end.

Definition merge_row (u r : gmap string value) : gmap string value := u ∪ r.

Definition Dataset_map (f : gmap string value -> exn + gmap string value)
  (ds : Dataset) : exn + Dataset :=
  match rows ds with
  | [] => inr ds
  | _ :: _ =>
      letE us := map_outputs f (rows ds) in
      inr {| features :=
               match us with
               | u :: _ => (dtype_of <$> u) ∪ features ds
               | [] => features ds
               end;
             rows := zip_with merge_row us (rows ds) |}
  end.

(** ** The pipeline object and its monad *)

(** [self]: the dataset it owns, and what it has sent to the logger. *)
Record Galactic : Type := {
  dataset : Dataset;
  log : list log_record
}.

(** A method of the pipeline: from the state before to an outcome and
    the state after.  Every method returns [self]; the returned
    state is that [self]. *)
Definition M (A : Type) : Type := Galactic -> (exn + A) * Galactic.

Definition ret {A} (a : A) : M A := fun self => (inr a, self).

Definition raise {A} (e : exn) : M A := fun self => (inl e, self).

Definition bind {A B} (m : M A) (k : A -> M B) : M B :=
  fun self =>
    match m self with
    | (inl e, self') => (inl e, self')
    | (inr a, self') => k a self'
    end.

Notation "'letM' x := m 'in' k" := (bind m (fun x => k))
  (at level 10, x name, m at level 100, k at level 200).
Notation "'run' m 'then' k" := (bind m (fun _ => k))
  (at level 10, m at level 100, k at level 200).

Definition lift {A} (m : exn + A) : M A := fun self => (m, self).

Definition get_dataset : M Dataset := fun self => (inr (dataset self), self).

Definition set_dataset (ds : Dataset) : M unit :=
  fun self => (inr tt, {| dataset := ds; log := log self |}).

Definition logger (r : log_record) : M unit :=
  fun self => (inr tt, {| dataset := dataset self; log := log self ++ [r] |}).

(** [self.dataset = self.dataset.map(f)] *)
Definition map_in_place (f : gmap string value -> exn + gmap string value)
  : M unit :=
  letM ds := get_dataset in
  letM ds' := lift (Dataset_map f ds) in
  set_dataset ds'.

(** ** External capabilities *)

(** What [model.predict(text)] of a fastText model returns: the tuple
    of labels and the array of their probabilities, best first. *)
Record Prediction : Type := {
  labels : list (list N);
  probabilities : list R
}.

(** A loaded fastText model. *)
Record FastText : Type := {
  predict : list N -> exn + Prediction
}.

(** A subword tokenizer from [AutoTokenizer.from_pretrained]. *)
Record Tokenizer : Type := {
  input_ids : list N -> exn + list N;
  convert_ids_to_tokens : list N -> list (list N)
}.

(** A [ctranslate2.Generator]; [log_probs_of tokens] is
    [score_batch([tokens])[0].log_probs]. *)
Record Generator : Type := {
  log_probs_of : list (list N) -> exn + list R
}.

(** A [KenlmModel] of [galactic/kenlm.py]. *)
Record KenlmModel : Type := {
  get_perplexity : list N -> exn + R
}.

(** A finding of the entity scanner. *)
Record Filth : Type := {
  detector_name : string
}.

Record Capabilities : Type := {
  (** [str(x)] of a float *)
  float_str : R -> list N;
  (** [s.lower()] *)
  str_lower : list N -> list N;
  (** [hf_hub_download] of the named file of TaylorAI/galactic-models,
      then [fasttext.load_model] *)
  load_fasttext : string -> exn + FastText;
  (** [snapshot_download] of p70, then [ctranslate2.Generator] *)
  load_generator : exn + Generator;
  (** [AutoTokenizer.from_pretrained(name)] *)
  AutoTokenizer_from_pretrained : string -> exn + Tokenizer;
  (** [KenlmModel.from_pretrained(dataset, language)] *)
  KenlmModel_from_pretrained : string -> string -> exn + KenlmModel;
  (** [scrubadub.list_filth(text)] *)
  list_filth : list N -> list Filth
}.

(** [np.sum] of a list of floats. *)
Definition np_sum (xs : list R) : R := fold_right Rplus 0%R xs.

(** [str(n)] of an int. *)
Definition int_str (n : Z) : list N := T (NilEmpty.string_of_int (Z.to_int n)).

Section Taggers.

Variable env : Capabilities.

(** [str(v)] *)
Definition py_str (v : value) : list N :=
  match v with
  | VStr s => s
  | VInt n => int_str n
  | VBool true => T "True"
  | VBool false => T "False"
  | VFloat x => float_str env x
  | VNone => T "None"
  | VObject printed => printed
  end.

(** *** tag_string *)

(** The loop of [tag_]: [true] at the first field that matches. *)
Fixpoint tag_fields (regexp : Re.pattern) (sample : gmap string value)
  (fields : list string) : bool :=
  match fields with
  | [] => false
  | field :: rest =>
      match sample !! field with
      | Some v =>
          let found :=
            match v with
            | VStr s => Re.search regexp s
            | _ => Re.search regexp (py_str v)
            end in
          if found then true else tag_fields regexp sample rest
      | None => tag_fields regexp sample rest
      end
  end.

Definition tag_ (regexp : Re.pattern) (fields : list string) (tag : string)
  (sample : gmap string value) : exn + gmap string value :=
  inr {[ ("__tag__" ++ tag)%string := VBool (tag_fields regexp sample fields) ]}.

Definition re_compile (p : list N) : exn + Re.pattern :=
  match Re.compile p with
  | Some r => inr r
  | None => inl ReError
  end.

Definition tag_string (fields : list string) (values : list (list N))
  (tag : string) : M unit :=
  letM ds := get_dataset in
  run (if has_column ds ("__tag__" ++ tag)%string
       then logger (LogWarning
              ("Tag " ++ tag ++
               " already exists. This will overwrite the existing tag."))
       else ret tt) then
  letM regexp := lift (re_compile (Text.join [cp_bar] (map Re.escape values))) in
  run map_in_place (tag_ regexp fields tag) then
  logger (LogInfo "tag_string" fields).

(** *** detect_language *)

(** [labels[0].split("__label__")[1]] *)
Definition top_label (p : Prediction) : exn + list N :=
  letE l := index (labels p) 0 in
  index (Text.split (T "__label__") l) 1.

Definition detect_language_ (model : FastText) (field : string)
  (sample : gmap string value) : exn + gmap string value :=
  letE v := getitem sample field in
  match v with
  | VStr s =>
      letE p := predict model (Text.replace_char cp_newline cp_space s) in
      letE l := top_label p in
      inr {[ "__language" := VStr l ]}
  | _ =>
      letE p := predict model (py_str v) in
      letE l := top_label p in
      inr {[ "__language" := VStr l ]}
  end.

Definition field_not_found (field : string) : exn :=
  ValueError ("Field " ++ field ++ " not found in dataset.").

Definition detect_language (field : string) : M unit :=
  letM ds := get_dataset in
  if negb (has_column ds field) then raise (field_not_found field)
  else
    letM model := lift (load_fasttext env "lid.176.ftz") in
    run map_in_place (detect_language_ model field) then
    logger (LogInfo "detect_language" [field]).

(** *** calc_perplexity *)

Definition not_a_string_field (field purpose : string) : exn :=
  ValueError ("Field " ++ field ++
              " is not a string field, and so can't be used to " ++ purpose).

Definition kenlm_needs_both : exn :=
  ValueError "Must specify language (e.g. 'en') and dataset (e.g. 'wikipedia') for KenLM. See options here: https://huggingface.co/edugp/kenlm/tree/main".

Definition model_not_supported (model : string) : exn :=
  ValueError ("Model " ++ model ++
              " not supported. Supported models: 'kenlm', 'pythia'.").

(** [calc_] of the pythia branch. *)
Definition calc_pythia (model : Generator) (tokenizer : Tokenizer)
  (field : string) (sample : gmap string value) : exn + gmap string value :=
  letE v := getitem sample field in
  letE s := as_text v in
  letE token_ids := input_ids tokenizer s in
  let tokens := convert_ids_to_tokens tokenizer token_ids in
  letE log_probs := log_probs_of model tokens in
  let ppl := exp (- np_sum log_probs / IZR (byte_len s)) in
  inr {[ "__perplexity" := VFloat ppl ]}.

(** [calc_] of the kenlm branch. *)
Definition calc_kenlm (model : KenlmModel) (field : string)
  (sample : gmap string value) : exn + gmap string value :=
  letE v := getitem sample field in
  letE s := as_text v in
  letE ppl := get_perplexity model s in
  inr {[ "__perplexity" := VFloat ppl ]}.

(** The body of [calc_perplexity], on the values its parameters
    have; [None] is Python's [None]. *)
Definition calc_perplexity_body (field : string) (model : string)
  (language dataset : option string) : M unit :=
  letM ds := get_dataset in
  match features ds !! field with
  | None => raise (field_not_found field)
  | Some dtype =>
      if negb (String.eqb dtype "string")
      then raise (not_a_string_field field "calculate perplexity.")
      else
        letM calc_ :=
          if String.eqb model "pythia" then
            letM generator := lift (load_generator env) in
            letM tokenizer :=
              lift (AutoTokenizer_from_pretrained env "EleutherAI/pythia-70m") in
            ret (calc_pythia generator tokenizer field)
          else if String.eqb model "kenlm" then
            match language, dataset with
            | Some language, Some dataset =>
                letM kenlm := lift (KenlmModel_from_pretrained env dataset language) in
                ret (calc_kenlm kenlm field)
            | _, _ => raise kenlm_needs_both
            end
          else raise (model_not_supported model)
        in
        run map_in_place calc_ then
        logger (LogInfo "calc_perplexity" [field])
  end.

(** A call of [calc_perplexity]: an argument that the caller leaves
    out ([None] here) takes the default of the signature,
    [model="kenlm"], [language="en"], [dataset="wikipedia"]; an
    argument that is passed may itself be Python's [None]. *)
Definition calc_perplexity (field : string) (model : option string)
  (language dataset : option (option string)) : M unit :=
  calc_perplexity_body field
    (default "kenlm" model)
    (default (Some "en") language)
    (default (Some "wikipedia") dataset).

(** *** detect_pii *)

(** The loop of [detect_] that fills [filth]. *)
Fixpoint collect_filth (sample : gmap string value) (fields : list string)
  : list Filth :=
  match fields with
  | [] => []
  | field :: rest =>
      match sample !! field with
      | Some v =>
          match v with
          | VStr s => list_filth env s
          | _ => list_filth env (py_str v)
          end ++ collect_filth sample rest
      | None => collect_filth sample rest
      end
  end.

Definition tracked_pii : list string := ["email"; "phone"; "credential"].

(** [f in filth_types] *)
Definition in_types (f : string) (filth_types : list string) : bool :=
  bool_decide (f ∈ filth_types).

Definition detect_pii_ (fields : list string) (sample : gmap string value)
  : exn + gmap string value :=
  let filth := collect_filth sample fields in
  let filth_types := map detector_name filth in
  inr (<[ "__pii__any" := VBool (0 <? length filth)%nat ]>
         (list_to_map
            (map (fun f => (("__pii__" ++ f)%string, VBool (in_types f filth_types)))
                 tracked_pii))).

Definition detect_pii (fields : list string) : M unit :=
  run map_in_place (detect_pii_ fields) then
  logger (LogInfo "detect_pii" fields).

(** *** detect_seo_spam *)

Definition detect_seo_spam_ (model : FastText) (field : string)
  (sample : gmap string value) : exn + gmap string value :=
  letE v := getitem sample field in
  letE s := as_text v in
  letE result :=
    predict model (str_lower env (Text.replace_char cp_newline cp_space s)) in
  letE label := top_label result in
  letE prob := index (probabilities result) 0 in
  if bool_decide (label = T "discard") then
    inr {[ ("__seo_spam__" ++ field)%string := VBool true;
           ("__seo_spam_prob__" ++ field)%string := VFloat prob ]}
  else
    inr {[ ("__seo_spam__" ++ field)%string := VBool false;
           ("__seo_spam_prob__" ++ field)%string := VFloat (1 - prob) ]}.

Definition detect_seo_spam (field : string) : M unit :=
  letM ds := get_dataset in
  match features ds !! field with
  | None => raise (field_not_found field)
  | Some dtype =>
      if negb (String.eqb dtype "string")
      then raise (not_a_string_field field "detect SEO spam.")
      else
        letM model := lift (load_fasttext env "seo_spam.ftz") in
        run map_in_place (detect_seo_spam_ model field) then
        logger (LogInfo "detect_seo_spam" [field])
  end.

(** *** count_tokens *)

(** [lambda x: byte_len(str(x))] *)
Definition count_bytes (x : value) : exn + Z := inr (byte_len (py_str x)).

(** [lambda x: len(tokenizer(str(x)).input_ids)] *)
Definition count_ids (tokenizer : Tokenizer) (x : value) : exn + Z :=
  letE ids := input_ids tokenizer (py_str x) in
  inr (Z.of_nat (length ids)).

(** The dict comprehension
    [{f"{field_name}{field}": count_fn(x[field]) for field in fields}],
    filling [acc] from left to right. *)
Fixpoint count_columns (count_fn : value -> exn + Z) (field_name : string)
  (x : gmap string value) (fields : list string) (acc : gmap string value)
  : exn + gmap string value :=
  match fields with
  | [] => inr acc
  | field :: rest =>
      letE v := getitem x field in
      letE n := count_fn v in
      count_columns count_fn field_name x rest
        (<[ (field_name ++ field)%string := VInt n ]> acc)
  end.

Definition count_tokens (fields : list string) (tokenizer : option string)
  : M unit :=
  letM counter :=
    match tokenizer with
    | None => ret (count_bytes, "__byte_count__")
    | Some name =>
        letM tokenizer := lift (AutoTokenizer_from_pretrained env name) in
        ret (count_ids tokenizer, "__token_count__")
    end in
  let count_fn := fst counter in
  let field_name := snd counter in
  run map_in_place (fun x => count_columns count_fn field_name x fields ∅) then
  logger (LogInfo "count_tokens" fields).

End Taggers.

(** ** A concrete instance of the capabilities

    Small stand-ins for the pretrained models, used to run the
    operations on concrete datasets. *)

Module Fixture.

Definition ascii_lower (s : list N) : list N :=
  map (fun c => if (65 <=? c) && (c <=? 90) then c + 32 else c) s.

(** Like fastText, the language model refuses a text with a newline. *)
Definition lid : FastText :=
  {| predict := fun s =>
       if existsb (N.eqb cp_newline) s
       then inl (ValueError "predict processes one line at a time (remove '\n')")
       else inr {| labels := [T "__label__en"];
                   probabilities := [(99 / 100)%R] |} |}.

Definition seo_spam : FastText :=
  {| predict := fun s =>
       if Text.contains (T "buy now") s
       then inr {| labels := [T "__label__discard"];
                   probabilities := [(8 / 10)%R] |}
       else inr {| labels := [T "__label__keep"];
                   probabilities := [(9 / 10)%R] |} |}.

(** One token per character, each with log-probability -1. *)
Definition char_tokenizer : Tokenizer :=
  {| input_ids := fun s => inr s;
     convert_ids_to_tokens := map (fun c => [c]) |}.

Definition generator : Generator :=
  {| log_probs_of := fun tokens => inr (map (fun _ => (-1)%R) tokens) |}.

Definition kenlm : KenlmModel :=
  {| get_perplexity := fun s => inr (IZR (byte_len s)) |}.

Definition scanner (s : list N) : list Filth :=
  (if Text.contains (T "@") s then [ {| detector_name := "email" |} ] else [])
  ++ (if Text.contains (T "http") s then [ {| detector_name := "url" |} ] else []).

Definition env : Capabilities :=
  {| float_str := fun _ => T "0.0";
     str_lower := ascii_lower;
     load_fasttext := fun name =>
       if String.eqb name "lid.176.ftz" then inr lid
       else if String.eqb name "seo_spam.ftz" then inr seo_spam
       else inl (LoadError name);
     load_generator := inr generator;
     AutoTokenizer_from_pretrained := fun _ => inr char_tokenizer;
     KenlmModel_from_pretrained := fun _ _ => inr kenlm;
     list_filth := scanner |}.

Definition hello : list N := [104; 233; 108; 108; 111].

(** One text column [body], two rows. *)
Definition two_rows : Galactic :=
  {| dataset :=
       {| features := {[ "body" := "string" ]};
          rows := [ {[ "body" := VStr hello ]};
                    {[ "body" := VStr (T "This is a scam") ]} ] |};
     log := [] |}.

(** The same schema without rows. *)
Definition no_rows : Galactic :=
  {| dataset := {| features := {[ "body" := "string" ]}; rows := [] |};
     log := [] |}.

(** A column of arrays; the printed form of a two-dimensional array
    has one line per row of the array. *)
Definition array_text : list N := T "[[1 2]" ++ [cp_newline] ++ T " [3 4]]".

Definition array_rows : Galactic :=
  {| dataset :=
       {| features := {[ "arr" := "object" ]};
          rows := [ {[ "arr" := VObject array_text ]} ] |};
     log := [] |}.

End Fixture.

(** ** tag_regex

    [re.compile] on a pattern of the caller is the business of the [re]
    module: it raises or returns a compiled pattern, of which [tag_]
    uses [search] as a truth value.  The module is a parameter. *)

(** The loop of [tag_] in [tag_regex]. *)
Fixpoint tag_regex_fields (env : Capabilities) (regexp : list N -> bool)
  (sample : gmap string value) (fields : list string) : bool :=
  match fields with
  | [] => false
  | field :: rest =>
      match sample !! field with
      | Some v =>
          let found :=
            match v with
            | VStr s => regexp s
            | _ => regexp (py_str env v)
            end in
          if found then true else tag_regex_fields env regexp sample rest
      | None => tag_regex_fields env regexp sample rest
      end
  end.

Definition tag_regex_ (env : Capabilities) (regexp : list N -> bool)
  (fields : list string) (tag : string) (sample : gmap string value)
  : exn + gmap string value :=
  inr {[ ("__tag__" ++ tag)%string :=
           VBool (tag_regex_fields env regexp sample fields) ]}.

Definition tag_regex (env : Capabilities)
  (re_compile_any : list N -> exn + (list N -> bool))
  (fields : list string) (regex : list N) (tag : string) : M unit :=
  letM ds := get_dataset in
  run (if has_column ds ("__tag__" ++ tag)%string
       then logger (LogWarning
              "Tag already exists. This will overwrite the existing tag.")
       else ret tt) then
  letM regexp := lift (re_compile_any regex) in
  run map_in_place (tag_regex_ env regexp fields tag) then
  logger (LogInfo "tag_regex" fields).

(** The [re] module on the patterns of the fragment [Re]. *)
Definition fragment_re (p : list N) : exn + (list N -> bool) :=
  match Re.compile p with
  | Some r => inr (Re.search r)
  | None => inl ReError
  end.

(** The text that [detect_] of [detect_language] hands to the model. *)
Definition language_query (env : Capabilities) (v : value) : list N :=
  match v with
  | VStr s => Text.replace_char cp_newline cp_space s
  | _ => py_str env v
  end.

(** ** Vocabulary of the statements *)

(** What [tag_string] compiles: the literals themselves, and for an
    empty list of literals the empty pattern. *)
Definition literals (values : list (list N)) : Re.pattern :=
  match values with
  | [] => [[]]
  | _ :: _ => values
  end.

(** In the mapped dataset every row is the old row with the dict of
    the function merged in. *)
Definition row_mapped (f : gmap string value -> exn + gmap string value)
  (r r' : gmap string value) : Prop :=
  exists u, f r = inr u /\ r' = merge_row u r.

(** Some listed field that the row has holds, once stringified, one of
    the literal values as a substring.  Characters are compared as code
    points, so the comparison is case-sensitive. *)
Definition some_field_contains (env : Capabilities) (values : list (list N))
  (fields : list string) (sample : gmap string value) : Prop :=
  exists field v val pre post,
    field ∈ fields /\ sample !! field = Some v /\
    val ∈ values /\ py_str env v = pre ++ val ++ post.

(** The findings of a row: what the scanner reports on the stringified
    value of a listed field that the row has. *)
Definition finding_in_row (env : Capabilities) (fields : list string)
  (sample : gmap string value) (x : Filth) : Prop :=
  exists field v, field ∈ fields /\ sample !! field = Some v /\
                  x ∈ list_filth env (py_str env v).

(** The four columns that [detect_] returns. *)
Definition pii_columns (email phone credential any : bool)
  (r : gmap string value) : gmap string value :=
  <[ "__pii__any" := VBool any ]>
    (<[ "__pii__email" := VBool email ]>
       (<[ "__pii__phone" := VBool phone ]>
          (<[ "__pii__credential" := VBool credential ]> r))).

(** The two columns that [detect_] returns for [field]. *)
Definition spam_columns (field : string) (spam : bool) (prob : R)
  (r : gmap string value) : gmap string value :=
  <[ ("__seo_spam__" ++ field)%string := VBool spam ]>
    (<[ ("__seo_spam_prob__" ++ field)%string := VFloat prob ]> r).

(** The rows of a dataset have the columns of its schema. *)
Definition conforms (ds : Dataset) : Prop :=
  Forall (fun r : gmap string value =>
            forall f, is_Some (r !! f) <-> is_Some (features ds !! f))
    (rows ds).

(** Capabilities without access to any model: every load fails. *)
Definition offline : Capabilities :=
  {| float_str := fun _ => T "0.0";
     str_lower := Fixture.ascii_lower;
     load_fasttext := fun name => inl (LoadError name);
     load_generator := inl (LoadError "p70");
     AutoTokenizer_from_pretrained := fun name => inl (LoadError name);
     KenlmModel_from_pretrained := fun name _ => inl (LoadError name);
     list_filth := Fixture.scanner |}.

(** A method that, when it raises, leaves the dataset it was called on. *)
Definition fails_cleanly {A} (m : M A) : Prop :=
  forall self e self', m self = (inl e, self') -> dataset self' = dataset self.

(** A method that never assigns the dataset, whatever its outcome. *)
Definition keeps_dataset {A} (m : M A) : Prop :=
  forall self out self', m self = (out, self') -> dataset self' = dataset self.

(** A method that never raises. *)
Definition never_raises {A} (m : M A) : Prop :=
  forall self e self', m self <> (inl e, self').

(** A method that, when it returns, has as many rows as before. *)
Definition keeps_row_count {A} (m : M A) : Prop :=
  forall self a self',
    m self = (inr a, self') ->
    length (rows (dataset self')) = length (rows (dataset self)).

(** * Properties *)

(** ** The definitions on small inputs *)

Example T_scam : T "scam" = [115; 99; 97; 109].
Proof. reflexivity. Qed.

Example byte_len_hello : byte_len [104; 233; 108; 108; 111] = 6%Z.
Proof. reflexivity. Qed.

Example split_label :
  Text.split (T "__label__") (T "__label__en") = [[]; T "en"].
Proof. reflexivity. Qed.

Example split_label_end :
  Text.split (T "__label__") (T "a__label__") = [T "a"; []].
Proof. reflexivity. Qed.

Example split_twice :
  Text.split (T "ab") (T "xabyabz") = [T "x"; T "y"; T "z"].
Proof. reflexivity. Qed.

Example compile_scam :
  Re.compile (Text.join [cp_bar] (map Re.escape [T "a.b"; T "c|d"]))
  = Some [T "a.b"; T "c|d"].
Proof. reflexivity. Qed.

(** ** Text and patterns *)

Section TextFacts.

Lemma starts_with_prefix (p s : list N) :
  Text.starts_with p s = true <-> exists t, s = p ++ t.
Proof.
  revert s; induction p as [|a p IH]; intros s; simpl.
  - split; [intros _; exists s; reflexivity | reflexivity].
  - destruct s as [|b s].
    + split; [discriminate | intros [t Ht]; discriminate].
    + rewrite andb_true_iff, N.eqb_eq, IH. split.
      * intros [-> [t ->]]. exists t. reflexivity.
      * intros [t Ht]. injection Ht as -> ->. split; [reflexivity | eauto].
Qed.

Lemma contains_substring (p s : list N) :
  Text.contains p s = true <-> exists pre post, s = pre ++ p ++ post.
Proof.
  induction s as [|c s IH]; simpl.
  - rewrite orb_false_r, starts_with_prefix. split.
    + intros [t Ht]. exists [], t. exact Ht.
    + intros [pre [post H]]. destruct pre; simpl in H.
      * exists post. exact H.
      * discriminate.
  - rewrite orb_true_iff, starts_with_prefix, IH. split.
    + intros [[t Ht] | [pre [post Ht]]].
      * exists [], t. exact Ht.
      * exists (c :: pre), post. simpl. rewrite Ht. reflexivity.
    + intros [pre [post H]]. destruct pre as [|d pre]; simpl in H.
      * left. exists post. exact H.
      * right. injection H as -> ->. exists pre, post. reflexivity.
Qed.

Lemma search_substring (r : Re.pattern) (s : list N) :
  Re.search r s = true <->
  exists alt pre post, alt ∈ r /\ s = pre ++ alt ++ post.
Proof.
  induction s as [|c s IH]; simpl.
  - rewrite orb_false_r, existsb_exists. split.
    + intros [alt [Hin Hp]]. apply starts_with_prefix in Hp as [t Ht].
      exists alt, [], t. split; [apply list_elem_of_In, Hin | exact Ht].
    + intros (alt & pre & post & Hin & H).
      destruct pre; simpl in H.
      * exists alt. split; [apply list_elem_of_In, Hin |].
        apply starts_with_prefix. eauto.
      * discriminate.
  - rewrite orb_true_iff, existsb_exists, IH. split.
    + intros [[alt [Hin Hp]] | (alt & pre & post & Hin & ->)].
      * apply starts_with_prefix in Hp as [t Ht].
        exists alt, [], t. split; [apply list_elem_of_In, Hin | exact Ht].
      * exists alt, (c :: pre), post. split; [exact Hin | reflexivity].
    + intros (alt & pre & post & Hin & H).
      destruct pre as [|d pre]; simpl in H.
      * left. exists alt. split; [apply list_elem_of_In, Hin |].
        apply starts_with_prefix. eauto.
      * right. injection H as -> ->. exists alt, pre, post. eauto.
Qed.

(** The empty pattern matches every string. *)
Lemma search_empty_pattern (s : list N) : Re.search [[]] s = true.
Proof. destruct s; reflexivity. Qed.

Lemma fold_push (v a : list N) (alts : Re.pattern) :
  fold_right Re.push (Some (a :: alts)) v = Some ((v ++ a) :: alts).
Proof. induction v as [|c v IH]; simpl; [|rewrite IH]; reflexivity. Qed.

Lemma compile_escape_char (c : N) (p : list N) :
  Re.compile ((if Re.is_special c then [cp_backslash; c] else [c]) ++ p)
  = Re.push c (Re.compile p).
Proof.
  destruct (Re.is_special c) eqn:Hc; simpl.
  - rewrite Hc. reflexivity.
  - destruct (N.eqb_spec c cp_bar) as [->|_]; [discriminate Hc|].
    destruct (N.eqb_spec c cp_backslash) as [->|_]; [discriminate Hc|].
    rewrite Hc. reflexivity.
Qed.

Lemma compile_escape (v p : list N) :
  Re.compile (Re.escape v ++ p) = fold_right Re.push (Re.compile p) v.
Proof.
  unfold Re.escape. induction v as [|c v IH]; [reflexivity|].
  cbn [flat_map fold_right]. rewrite <- app_assoc, compile_escape_char, IH.
  reflexivity.
Qed.

Lemma compile_bar (p : list N) :
  Re.compile (cp_bar :: p)
  = match Re.compile p with
    | Some alts => Some ([] :: alts)
    | None => None
    end.
Proof. reflexivity. Qed.

Lemma join_cons (sep v w : list N) (values : list (list N)) :
  Text.join sep (v :: w :: values) = v ++ sep ++ Text.join sep (w :: values).
Proof. reflexivity. Qed.

Lemma compile_escaped (values : list (list N)) :
  Re.compile (Text.join [cp_bar] (map Re.escape values))
  = Some (literals values).
Proof.
  destruct values as [|v values]; [reflexivity|].
  revert v; induction values as [|w values IH]; intros v.
  - cbn [map Text.join]. rewrite <- (app_nil_r (Re.escape v)), compile_escape.
    change (Re.compile []) with (Some [[] : list N]).
    rewrite fold_push, app_nil_r. reflexivity.
  - cbn [map]. rewrite join_cons, compile_escape.
    cbn [app]. rewrite compile_bar.
    specialize (IH w). cbn [map] in IH. rewrite IH.
    rewrite fold_push, app_nil_r. reflexivity.
Qed.

End TextFacts.

(** ** The row mapper *)

Section MapFacts.

Implicit Types f : gmap string value -> exn + gmap string value.

Lemma map_outputs_inr f rs us :
  map_outputs f rs = inr us -> Forall2 (fun r u => f r = inr u) rs us.
Proof.
  revert us; induction rs as [|r rs IH]; intros us; simpl.
  - intros [= <-]. constructor.
  - destruct (f r) as [e|u] eqn:Hr; simpl; [discriminate|].
    destruct (map_outputs f rs) as [e|us'] eqn:Hrs; simpl; [discriminate|].
    intros [= <-]. constructor; auto.
Qed.

Lemma map_outputs_pure f (g : gmap string value -> gmap string value) rs :
  (forall r, f r = inr (g r)) -> map_outputs f rs = inr (map g rs).
Proof.
  intros Hf. induction rs as [|r rs IH]; simpl; [reflexivity|].
  rewrite Hf, IH. reflexivity.
Qed.

Lemma map_outputs_first_error f r rs e :
  f r = inl e -> map_outputs f (r :: rs) = inl e.
Proof. intros H. simpl. rewrite H. reflexivity. Qed.

Lemma Dataset_map_rows f ds ds' :
  Dataset_map f ds = inr ds' -> Forall2 (row_mapped f) (rows ds) (rows ds').
Proof.
  unfold Dataset_map. destruct (rows ds) as [|r rs] eqn:Hrows.
  - intros [= <-]. rewrite Hrows. constructor.
  - destruct (map_outputs f (r :: rs)) as [e|us] eqn:Hus; simpl; [discriminate|].
    intros [= <-]. simpl. apply map_outputs_inr in Hus.
    clear Hrows. revert Hus. generalize (r :: rs). intros l Hus.
    induction Hus as [|x u l us Hx _ IH]; simpl; constructor; auto.
    exists u. auto.
Qed.

Lemma zip_with_map (g : gmap string value -> gmap string value)
  (rs : list (gmap string value)) :
  zip_with merge_row (map g rs) rs = map (fun r => merge_row (g r) r) rs.
Proof. induction rs as [|r rs IH]; simpl; [|rewrite IH]; reflexivity. Qed.

Lemma Dataset_map_pure f (g : gmap string value -> gmap string value) ds :
  (forall r, f r = inr (g r)) ->
  exists ds', Dataset_map f ds = inr ds' /\
              rows ds' = map (fun r => merge_row (g r) r) (rows ds).
Proof.
  intros Hf. unfold Dataset_map. destruct (rows ds) as [|r rs] eqn:Hrows.
  - exists ds. rewrite Hrows. auto.
  - rewrite (map_outputs_pure f g _ Hf). simpl.
    eexists. split; [reflexivity|]. simpl.
    f_equal. apply zip_with_map.
Qed.

Lemma map_in_place_inr f self self' :
  map_in_place f self = (inr tt, self') ->
  Forall2 (row_mapped f) (rows (dataset self)) (rows (dataset self')) /\
  log self' = log self.
Proof.
  unfold map_in_place, bind, get_dataset, lift, set_dataset.
  destruct (Dataset_map f (dataset self)) as [e|ds'] eqn:Hmap; [discriminate|].
  intros [= <-]. simpl. split; [|reflexivity].
  apply Dataset_map_rows, Hmap.
Qed.

(** A map that raises leaves [self] as it was. *)
Lemma map_in_place_inl f self self' e :
  map_in_place f self = (inl e, self') -> self' = self.
Proof.
  unfold map_in_place, bind, get_dataset, lift, set_dataset.
  destruct (Dataset_map f (dataset self)) as [e'|ds']; [|discriminate].
  intros [= _ <-]. reflexivity.
Qed.

Lemma map_in_place_pure f (g : gmap string value -> gmap string value) self :
  (forall r, f r = inr (g r)) ->
  exists self', map_in_place f self = (inr tt, self') /\
                rows (dataset self')
                = map (fun r => merge_row (g r) r) (rows (dataset self)) /\
                log self' = log self.
Proof.
  intros Hf. unfold map_in_place, bind, get_dataset, lift, set_dataset.
  destruct (Dataset_map_pure f g (dataset self) Hf) as (ds' & -> & Hrows).
  eexists. split; [reflexivity|]. simpl. auto.
Qed.

(** On a dataset with a first row, an exception in that row is the
    outcome of the map. *)
Lemma map_in_place_first_error f self r rs e :
  rows (dataset self) = r :: rs -> f r = inl e ->
  map_in_place f self = (inl e, self).
Proof.
  intros Hrows Hr. unfold map_in_place, bind, get_dataset, lift, Dataset_map.
  rewrite Hrows, (map_outputs_first_error f r rs e Hr). reflexivity.
Qed.

Lemma merge_singleton (k : string) (v : value) (r : gmap string value) :
  merge_row {[ k := v ]} r = <[ k := v ]> r.
Proof. unfold merge_row. symmetry. apply insert_union_singleton_l. Qed.

Lemma merge_insert (k : string) (v : value) (u r : gmap string value) :
  merge_row (<[ k := v ]> u) r = <[ k := v ]> (merge_row u r).
Proof. unfold merge_row. symmetry. apply insert_union_l. Qed.

End MapFacts.

(** ** The literal matcher *)

Section TagStringFacts.

Variable env : Capabilities.

(** Both branches of the [isinstance] test search the text [str]
    gives. *)
Lemma tag_fields_true (regexp : Re.pattern) (sample : gmap string value)
  (fields : list string) :
  tag_fields env regexp sample fields = true <->
  exists field v, field ∈ fields /\ sample !! field = Some v /\
                  Re.search regexp (py_str env v) = true.
Proof.
  induction fields as [|f fields IH]; simpl.
  - split; [discriminate|]. intros (field & v & Hin & _). inversion Hin.
  - destruct (sample !! f) as [v|] eqn:Hf.
    + assert (Hv : match v with
                   | VStr s => Re.search regexp s
                   | _ => Re.search regexp (py_str env v)
                   end = Re.search regexp (py_str env v)) by (destruct v; reflexivity).
      rewrite Hv. destruct (Re.search regexp (py_str env v)) eqn:Hs.
      * split; [intros _ | reflexivity]. exists f, v. split; [left|]; auto.
      * rewrite IH. split.
        -- intros (field & w & Hin & Hw & Hm). exists field, w.
           split; [right|]; auto.
        -- intros (field & w & Hin & Hw & Hm).
           apply elem_of_cons in Hin as [->|Hin].
           ++ congruence.
           ++ exists field, w. auto.
    + rewrite IH. split.
      * intros (field & w & Hin & Hw & Hm). exists field, w.
        split; [right|]; auto.
      * intros (field & w & Hin & Hw & Hm).
        apply elem_of_cons in Hin as [->|Hin]; [congruence|].
        exists field, w. auto.
Qed.

(** A field that the row does not have plays no part in the result. *)
Lemma tag_fields_present (regexp : Re.pattern) (sample : gmap string value)
  (fields : list string) :
  tag_fields env regexp sample fields
  = tag_fields env regexp sample
      (filter (fun f => is_Some (sample !! f)) fields).
Proof.
  induction fields as [|f fields IH]; [reflexivity|].
  rewrite filter_cons. destruct (decide (is_Some (sample !! f))) as [[v Hv]|Hn].
  - simpl. rewrite Hv, IH. reflexivity.
  - simpl. destruct (sample !! f) eqn:Hf; [exfalso; apply Hn; eauto|].
    exact IH.
Qed.

(** The loop stops at the first field that matches: what comes after
    it in [fields] is not looked at. *)
Lemma tag_fields_short_circuit (regexp : Re.pattern)
  (sample : gmap string value) (before after : list string)
  (field : string) (v : value) :
  sample !! field = Some v ->
  Re.search regexp (py_str env v) = true ->
  tag_fields env regexp sample (before ++ field :: after) = true.
Proof.
  intros Hv Hm. apply tag_fields_true. exists field, v.
  split; [|auto]. apply elem_of_app. right. left.
Qed.

(** [tag_string] always succeeds, and sets the tag column of every
    row to the value of the loop. *)
Lemma tag_string_run (fields : list string) (values : list (list N))
  (tag : string) (self : Galactic) :
  exists self',
    tag_string env fields values tag self = (inr tt, self') /\
    rows (dataset self')
    = map (fun r => <[ ("__tag__" ++ tag)%string :=
                         VBool (tag_fields env (literals values) r fields) ]> r)
          (rows (dataset self)).
Proof.
  unfold tag_string, bind, get_dataset, lift, re_compile.
  rewrite compile_escaped.
  set (f := tag_ env (literals values) fields tag).
  set (g := fun r : gmap string value =>
              ({[ ("__tag__" ++ tag)%string :=
                    VBool (tag_fields env (literals values) r fields) ]}
               : gmap string value)).
  assert (Hf : forall r, f r = inr (g r)) by reflexivity.
  destruct (has_column (dataset self) ("__tag__" ++ tag)); simpl;
    match goal with
    | |- context [map_in_place f ?s] =>
        destruct (map_in_place_pure f g s Hf) as (s2 & -> & Hrows & _)
    end;
    (eexists; split; [reflexivity|]; simpl; rewrite Hrows; simpl;
     apply map_ext; intros r; apply merge_singleton).
Qed.

End TagStringFacts.

Lemma Forall2_map_fun {A B} (g : A -> B) (P : A -> B -> Prop) (l : list A) :
  (forall a, P a (g a)) -> Forall2 P l (map g l).
Proof. intros H. induction l; simpl; constructor; auto. Qed.

Lemma literals_nonempty (values : list (list N)) :
  values <> [] -> literals values = values.
Proof. destruct values; [intros H; exfalso; apply H|]; reflexivity. Qed.

Lemma tag_fields_literals (env : Capabilities) (values : list (list N))
  (fields : list string) (sample : gmap string value) :
  values <> [] ->
  tag_fields env (literals values) sample fields = true <->
  some_field_contains env values fields sample.
Proof.
  intros Hne. rewrite tag_fields_true. unfold some_field_contains.
  rewrite (literals_nonempty values Hne). split.
  - intros (field & v & Hin & Hv & Hs).
    apply search_substring in Hs as (alt & pre & post & Halt & Heq).
    exists field, v, alt, pre, post. auto.
  - intros (field & v & val & pre & post & Hin & Hv & Hval & Heq).
    exists field, v. split; [auto|]. split; [auto|].
    apply search_substring. exists val, pre, post. auto.
Qed.

Lemma tag_fields_no_values (env : Capabilities) (fields : list string)
  (sample : gmap string value) :
  tag_fields env [[]] sample fields = true <->
  exists field, field ∈ fields /\ is_Some (sample !! field).
Proof.
  rewrite tag_fields_true. split.
  - intros (field & v & Hin & Hv & _). exists field. eauto.
  - intros (field & Hin & [v Hv]). exists field, v.
    split; [auto|]. split; [auto|]. apply search_empty_pattern.
Qed.

(** C10: with an empty list of values the joined pattern is the empty
    pattern, which matches every string, so [tag_string] sets the tag
    to true in every row that has at least one of the listed fields and
    to false in the rows that have none of them. *)
Theorem tag_string_no_values (env : Capabilities) (fields : list string)
  (tag : string) (self : Galactic) :
  Text.join [cp_bar] (map Re.escape []) = [] /\
  Re.compile [] = Some [[]] /\
  (forall s, Re.search [[]] s = true) /\
  exists self',
    tag_string env fields [] tag self = (inr tt, self') /\
    Forall2 (fun r r' =>
               exists b, r' = <[ ("__tag__" ++ tag)%string := VBool b ]> r /\
                         (b = true <->
                          exists field, field ∈ fields /\ is_Some (r !! field)))
            (rows (dataset self)) (rows (dataset self')).
Proof.
  split; [reflexivity|]. split; [reflexivity|].
  split; [apply search_empty_pattern|].
  destruct (tag_string_run env fields [] tag self) as (self' & Hrun & Hrows).
  exists self'. split; [exact Hrun|]. rewrite Hrows.
  apply Forall2_map_fun. intros r. eexists. split; [reflexivity|].
  apply tag_fields_no_values.
Qed.

(** C7, as the code has it: when the list of values is not empty, the
    tag of a row is true if and only if some listed field present in
    the row has a stringified value that contains one of the literal
    values as a case-sensitive substring, metacharacters taken
    literally; the fields are tried in the given order and the loop
    stops at the first one that matches.  With values ["scam"] the text
    "This is a scam" is tagged true and "This is a SCAM" false. *)
Theorem tag_string_literal_match (env : Capabilities) (fields : list string)
  (values : list (list N)) (tag : string) (self : Galactic)
  (Hvalues : values <> []) :
  (exists self',
     tag_string env fields values tag self = (inr tt, self') /\
     Forall2 (fun r r' =>
                exists b, r' = <[ ("__tag__" ++ tag)%string := VBool b ]> r /\
                          (b = true <-> some_field_contains env values fields r))
             (rows (dataset self)) (rows (dataset self'))) /\
  (forall sample before field after v pre val post,
     sample !! field = Some v -> val ∈ values ->
     py_str env v = pre ++ val ++ post ->
     tag_fields env (literals values) sample (before ++ field :: after) = true) /\
  tag_ env (literals [T "scam"]) ["text"] "junk"
    {[ "text" := VStr (T "This is a scam") ]}
  = inr {[ "__tag__junk" := VBool true ]} /\
  tag_ env (literals [T "scam"]) ["text"] "junk"
    {[ "text" := VStr (T "This is a SCAM") ]}
  = inr {[ "__tag__junk" := VBool false ]}.
Proof.
  split; [|split; [|split; reflexivity]].
  - destruct (tag_string_run env fields values tag self) as (self' & Hrun & Hrows).
    exists self'. split; [exact Hrun|]. rewrite Hrows.
    apply Forall2_map_fun. intros r. eexists. split; [reflexivity|].
    apply tag_fields_literals, Hvalues.
  - intros sample before field after v pre val post Hv Hval Heq.
    apply (tag_fields_short_circuit env _ sample before after field v Hv).
    rewrite (literals_nonempty values Hvalues). apply search_substring. exists val, pre, post. auto.
Qed.

Lemma tag_string_literal_match_witness :
  [T "scam"] <> [] /\
  exists self',
    tag_string Fixture.env ["body"] [T "scam"] "junk" Fixture.two_rows
    = (inr tt, self') /\
    Forall2 (fun r r' =>
               exists b, r' = <[ "__tag__junk" := VBool b ]> r /\
                         (b = true <->
                          some_field_contains Fixture.env [T "scam"] ["body"] r))
            (rows (dataset Fixture.two_rows)) (rows (dataset self')).
Proof.
  split; [discriminate|].
  apply (tag_string_literal_match Fixture.env ["body"] [T "scam"] "junk"
           Fixture.two_rows).
  discriminate.
Defined.

(** C7 as stated fails for an empty list of values: the row is tagged
    true although no literal value occurs in it, there being none. *)
Lemma tag_string_literal_match_counterexample :
  (rows (dataset (snd (tag_string Fixture.env ["body"] [] "junk"
                         Fixture.two_rows))) !! 0%nat)
    ≫= (fun r => r !! "__tag__junk")
  = Some (VBool true) /\
  ~ some_field_contains Fixture.env [] ["body"] {[ "body" := VStr Fixture.hello ]}.
Proof.
  split; [vm_compute; reflexivity|].
  intros (field & v & val & pre & post & _ & _ & Hval & _).
  inversion Hval.
Qed.

(** C5: on a field that the schema does not have, [detect_language]
    raises and leaves the pipeline as it was, whereas [tag_string] with
    any list of fields, missing ones included, does not raise and
    computes the tag of each row from the fields present in that
    row. *)
Theorem missing_field_asymmetry (env : Capabilities) (field : string)
  (fields : list string) (values : list (list N)) (tag : string)
  (self : Galactic) (Hmissing : features (dataset self) !! field = None) :
  detect_language env field self = (inl (field_not_found field), self) /\
  exists self',
    tag_string env (field :: fields) values tag self = (inr tt, self') /\
    rows (dataset self')
    = map (fun r =>
             <[ ("__tag__" ++ tag)%string :=
                  VBool (tag_fields env (literals values) r
                           (filter (fun f => is_Some (r !! f)) (field :: fields))) ]> r)
          (rows (dataset self)).
Proof.
  split.
  - unfold detect_language, bind, get_dataset, has_column.
    rewrite Hmissing. rewrite bool_decide_eq_false_2; [reflexivity|].
    intros [x Hx]. discriminate.
  - destruct (tag_string_run env (field :: fields) values tag self)
      as (self' & Hrun & Hrows).
    exists self'. split; [exact Hrun|]. rewrite Hrows.
    apply map_ext. intros r. rewrite <- tag_fields_present. reflexivity.
Qed.

Lemma missing_field_asymmetry_witness :
  features (dataset Fixture.two_rows) !! "title" = None /\
  detect_language Fixture.env "title" Fixture.two_rows
  = (inl (field_not_found "title"), Fixture.two_rows) /\
  exists self',
    tag_string Fixture.env ["title"; "body"] [T "scam"] "junk" Fixture.two_rows
    = (inr tt, self') /\
    rows (dataset self')
    = map (fun r =>
             <[ "__tag__junk" :=
                  VBool (tag_fields Fixture.env (literals [T "scam"]) r
                           (filter (fun f => is_Some (r !! f)) ["title"; "body"])) ]> r)
          (rows (dataset Fixture.two_rows)).
Proof.
  split; [reflexivity|].
  apply (missing_field_asymmetry Fixture.env "title" ["body"] [T "scam"] "junk"
           Fixture.two_rows).
  reflexivity.
Defined.

(** ** The PII detector *)

Lemma collect_filth_elem (env : Capabilities) (fields : list string)
  (sample : gmap string value) (x : Filth) :
  x ∈ collect_filth env sample fields <-> finding_in_row env fields sample x.
Proof.
  unfold finding_in_row. induction fields as [|f fields IH]; simpl.
  - split; [intros H; inversion H|]. intros (field & v & H & _). inversion H.
  - destruct (sample !! f) as [v|] eqn:Hf.
    + assert (Hv : match v with
                   | VStr s => list_filth env s
                   | _ => list_filth env (py_str env v)
                   end = list_filth env (py_str env v)) by (destruct v; reflexivity).
      rewrite Hv, elem_of_app, IH. split.
      * intros [Hx | (field & w & Hin & Hw & Hx)].
        -- exists f, v. split; [left|]; auto.
        -- exists field, w. split; [right|]; auto.
      * intros (field & w & Hin & Hw & Hx).
        apply elem_of_cons in Hin as [->|Hin].
        -- left. congruence.
        -- right. exists field, w. auto.
    + rewrite IH. split.
      * intros (field & w & Hin & Hw & Hx). exists field, w.
        split; [right|]; auto.
      * intros (field & w & Hin & Hw & Hx).
        apply elem_of_cons in Hin as [->|Hin]; [congruence|].
        exists field, w. auto.
Qed.

Lemma in_types_true (f : string) (filth : list Filth) :
  in_types f (map detector_name filth) = true <->
  exists x, x ∈ filth /\ detector_name x = f.
Proof.
  unfold in_types. rewrite bool_decide_eq_true, list_elem_of_In, in_map_iff.
  split; intros (x & H1 & H2); exists x.
  - split; [apply list_elem_of_In|]; auto.
  - split; [|apply list_elem_of_In]; auto.
Qed.

Lemma nonempty_true {A} (l : list A) :
  (0 <? length l)%nat = true <-> exists x, x ∈ l.
Proof.
  destruct l as [|a l]; simpl.
  - split; [discriminate | intros [x H]; inversion H].
  - split; [intros _; exists a; left | reflexivity].
Qed.

Lemma detect_pii_columns (env : Capabilities) (fields : list string)
  (sample : gmap string value) :
  let filth := collect_filth env sample fields in
  let types := map detector_name filth in
  detect_pii_ env fields sample
  = inr (pii_columns (in_types "email" types) (in_types "phone" types)
           (in_types "credential" types) (0 <? length filth)%nat ∅).
Proof. reflexivity. Qed.

Lemma merge_pii_columns (e p c a : bool) (r : gmap string value) :
  merge_row (pii_columns e p c a ∅) r = pii_columns e p c a r.
Proof.
  unfold pii_columns. rewrite !merge_insert. unfold merge_row.
  rewrite (left_id_L ∅ (∪)). reflexivity.
Qed.

(** C8: [detect_pii] never raises; in every row each of the three
    category flags is true exactly when the row has a finding of that
    category, and [__pii__any] is true exactly when the row has a
    finding at all, so a row whose findings are all of untracked
    categories gets the three flags false and [__pii__any] true. *)
Theorem detect_pii_flags (env : Capabilities) (fields : list string)
  (self : Galactic) :
  (exists self',
     detect_pii env fields self = (inr tt, self') /\
     Forall2 (fun r r' =>
                exists email phone credential any,
                  r' = pii_columns email phone credential any r /\
                  (email = true <->
                   exists x, finding_in_row env fields r x /\
                             detector_name x = "email") /\
                  (phone = true <->
                   exists x, finding_in_row env fields r x /\
                             detector_name x = "phone") /\
                  (credential = true <->
                   exists x, finding_in_row env fields r x /\
                             detector_name x = "credential") /\
                  (any = true <-> exists x, finding_in_row env fields r x))
             (rows (dataset self)) (rows (dataset self'))) /\
  (forall sample x,
     finding_in_row env fields sample x ->
     (forall y, finding_in_row env fields sample y ->
                detector_name y ∉ tracked_pii) ->
     detect_pii_ env fields sample = inr (pii_columns false false false true ∅)).
Proof.
  split.
  - unfold detect_pii, bind.
    destruct (map_in_place_pure (detect_pii_ env fields) _ self
                (detect_pii_columns env fields)) as (s & -> & Hrows & _).
    eexists. split; [reflexivity|]. simpl. rewrite Hrows.
    apply Forall2_map_fun. intros r. do 4 eexists.
    split; [apply merge_pii_columns|].
    repeat split.
    all: try (intros H; apply in_types_true in H as (x & Hx & Hn);
              exists x; split; [apply collect_filth_elem|]; assumption).
    all: try (intros (x & Hx & Hn); apply in_types_true; exists x;
              split; [apply collect_filth_elem|]; assumption).
    + intros H. apply nonempty_true in H as [x Hx]. exists x.
      apply collect_filth_elem, Hx.
    + intros [x Hx]. apply nonempty_true. exists x.
      apply collect_filth_elem, Hx.
  - intros sample x Hx Hall. rewrite detect_pii_columns. cbv zeta.
    assert (Hno : forall f, f ∈ tracked_pii ->
              in_types f (map detector_name (collect_filth env sample fields))
              = false).
    { intros f Hf. apply not_true_is_false. intros H.
      apply in_types_true in H as (y & Hy & Hn).
      apply (Hall y); [apply collect_filth_elem, Hy|]. rewrite Hn. exact Hf. }
    rewrite !Hno by (unfold tracked_pii; set_solver).
    assert (Hany : (0 <? length (collect_filth env sample fields))%nat = true).
    { apply nonempty_true. exists x. apply collect_filth_elem, Hx. }
    rewrite Hany. reflexivity.
Qed.

Lemma detect_pii_flags_witness :
  let sample : gmap string value := {[ "body" := VStr (T "see http://x") ]} in
  let x := {| detector_name := "url" |} in
  finding_in_row Fixture.env ["body"] sample x /\
  (forall y, finding_in_row Fixture.env ["body"] sample y ->
             detector_name y ∉ tracked_pii) /\
  detect_pii_ Fixture.env ["body"] sample
  = inr (pii_columns false false false true ∅).
Proof.
  intros sample x.
  assert (Hx : finding_in_row Fixture.env ["body"] sample x).
  { exists "body", (VStr (T "see http://x")).
    split; [left|]. split; [reflexivity|]. left. }
  assert (Hall : forall y, finding_in_row Fixture.env ["body"] sample y ->
                           detector_name y ∉ tracked_pii).
  { intros y (field & v & Hin & Hv & Hy).
    apply list_elem_of_singleton in Hin as ->.
    vm_compute in Hv. injection Hv as <-.
    apply list_elem_of_singleton in Hy as ->.
    unfold tracked_pii. cbn [detector_name]. intros H.
    repeat (apply elem_of_cons in H as [H|H]; [discriminate H|]).
    inversion H. }
  split; [exact Hx|]. split; [exact Hall|].
  exact (proj2 (detect_pii_flags Fixture.env ["body"] Fixture.two_rows)
           sample x Hx Hall).
Defined.

(** ** The token and byte counter *)

Lemma append_inj_l (p a b : string) : (p ++ a = p ++ b)%string -> a = b.
Proof. induction p as [|c p IH]; simpl; [auto|]. intros [= H]. auto. Qed.

Lemma count_columns_inr (count_fn : value -> exn + Z) (name : string)
  (x : gmap string value) (fields : list string) (acc u : gmap string value) :
  count_columns count_fn name x fields acc = inr u ->
  (forall f, f ∈ fields ->
     exists v n, x !! f = Some v /\ count_fn v = inr n /\
                 u !! (name ++ f)%string = Some (VInt n)) /\
  (forall k, (forall f, f ∈ fields -> k <> (name ++ f)%string) ->
             u !! k = acc !! k).
Proof.
  revert acc; induction fields as [|f fields IH]; intros acc; simpl.
  - intros [= <-]. split; [intros f H; inversion H | reflexivity].
  - unfold getitem. destruct (x !! f) as [v|] eqn:Hf; simpl; [|discriminate].
    destruct (count_fn v) as [e|n] eqn:Hn; simpl; [discriminate|].
    intros Hrest. destruct (IH _ Hrest) as [Hin Hout]. split.
    + intros g Hg. apply elem_of_cons in Hg as [->|Hg]; [|auto].
      destruct (decide (f ∈ fields)) as [Hmem|Hnot]; [auto|].
      exists v, n. split; [auto|]. split; [auto|].
      rewrite Hout.
      * apply lookup_insert_eq.
      * intros g Hg Heq. apply append_inj_l in Heq as ->. contradiction.
    + intros k Hk. rewrite Hout.
      * apply lookup_insert_ne. intros Heq. apply (Hk f); [left | auto].
      * intros g Hg. apply Hk. right. exact Hg.
Qed.

Lemma count_columns_total (count_fn : value -> exn + Z) (name : string)
  (x : gmap string value) (fields : list string) (acc : gmap string value) :
  (forall v, exists n, count_fn v = inr n) ->
  (forall f, f ∈ fields -> is_Some (x !! f)) ->
  exists u, count_columns count_fn name x fields acc = inr u.
Proof.
  intros Hfn. revert acc; induction fields as [|f fields IH]; intros acc Hall; simpl.
  - eauto.
  - destruct (Hall f) as [v Hv]; [left|]. unfold getitem. rewrite Hv. simpl.
    destruct (Hfn v) as [n ->]. simpl. apply IH.
    intros g Hg. apply Hall. right. exact Hg.
Qed.

Lemma first_missing_field (x : gmap string value) (fields : list string)
  (field : string) :
  field ∈ fields -> x !! field = None ->
  exists before first after,
    fields = before ++ first :: after /\ x !! first = None /\
    forall g, g ∈ before -> is_Some (x !! g).
Proof.
  induction fields as [|f fields IH]; intros Hin Hnone; [inversion Hin|].
  destruct (x !! f) as [v|] eqn:Hf.
  - assert (Hin' : field ∈ fields).
    { apply elem_of_cons in Hin as [->|Hin]; [congruence | exact Hin]. }
    destruct (IH Hin' Hnone) as (before & first & after & -> & Hfirst & Hbefore).
    exists (f :: before), first, after. split; [reflexivity|]. split; [exact Hfirst|].
    intros g Hg. apply elem_of_cons in Hg as [->|Hg]; [eauto | auto].
  - exists [], f, fields. split; [reflexivity|]. split; [exact Hf|].
    intros g Hg. inversion Hg.
Qed.

(** The comprehension stops at the first listed field that the row does
    not have, unless the count of an earlier field has raised. *)
Lemma count_columns_missing (count_fn : value -> exn + Z) (name : string)
  (x : gmap string value) (before after : list string) (first : string)
  (acc : gmap string value) :
  x !! first = None ->
  (forall g, g ∈ before -> is_Some (x !! g)) ->
  exists e,
    count_columns count_fn name x (before ++ first :: after) acc = inl e /\
    (e = KeyError first \/
     exists g v, g ∈ before /\ x !! g = Some v /\ count_fn v = inl e).
Proof.
  intros Hfirst. revert acc.
  induction before as [|f before IH]; intros acc Hbefore; simpl.
  - unfold getitem. rewrite Hfirst. simpl. eauto.
  - destruct (Hbefore f) as [v Hv]; [left|].
    unfold getitem. rewrite Hv. simpl.
    destruct (count_fn v) as [e|n] eqn:Hn; simpl.
    + exists e. split; [reflexivity|]. right. exists f, v.
      split; [left|]; auto.
    + destruct (IH (<[ (name ++ f)%string := VInt n ]> acc)) as (e & He & Hwhy).
      { intros g Hg. apply Hbefore. right. exact Hg. }
      exists e. split; [exact He|].
      destruct Hwhy as [-> | (g & w & Hg & Hw & Hfail)]; [left; reflexivity|].
      right. exists g, w. split; [right|]; auto.
Qed.

Lemma Forall2_Forall_l {A B} (P : A -> Prop) (Q R : A -> B -> Prop)
  (l : list A) (k : list B) :
  Forall P l -> Forall2 Q l k -> (forall a b, P a -> Q a b -> R a b) ->
  Forall2 R l k.
Proof.
  intros HP HQ H. induction HQ; constructor; inversion HP; subst; auto.
Qed.

(** C9: without a tokenizer, on a dataset whose rows have the listed
    fields, the counter succeeds and writes, for every row and every
    listed field, the UTF-8 byte length of the stringified value to
    [__byte_count__<field>]; "héllo" counts 6 bytes, not its 5
    characters. *)
Theorem count_tokens_byte_length (env : Capabilities) (fields : list string)
  (self : Galactic)
  (Hpresent : Forall (fun r => forall field, field ∈ fields -> is_Some (r !! field))
                (rows (dataset self))) :
  (exists self',
     count_tokens env fields None self = (inr tt, self') /\
     Forall2 (fun r r' =>
                forall field, field ∈ fields ->
                  exists v, r !! field = Some v /\
                            r' !! ("__byte_count__" ++ field)%string
                            = Some (VInt (byte_len (py_str env v))))
             (rows (dataset self)) (rows (dataset self'))) /\
  count_bytes env (VStr [104; 233; 108; 108; 111]) = inr 6%Z /\
  Text.char_len [104; 233; 108; 108; 111] = 5%Z.
Proof.
  split; [|split; reflexivity].
  unfold count_tokens, bind, ret. cbn [fst snd].
  set (f := fun x => count_columns (count_bytes env) "__byte_count__" x fields ∅).
  destruct (map_in_place f self) as [[e|[]] self'] eqn:Hrun.
  - exfalso. revert Hrun. unfold map_in_place, bind, get_dataset, lift, Dataset_map.
    destruct (rows (dataset self)) as [|r rs] eqn:Hrows; [discriminate|].
    assert (Hall : exists us, map_outputs f (r :: rs) = inr us).
    { clear Hrows. revert Hpresent. generalize (r :: rs). intros l Hl.
      induction Hl as [|x l Hx _ [us IH]]; simpl; [eauto|].
      destruct (count_columns_total (count_bytes env) "__byte_count__" x fields ∅)
        as [u Hu]; [intros v; eexists; reflexivity | exact Hx |].
      unfold f at 1. rewrite Hu, IH. simpl. eauto. }
    destruct Hall as [us ->]. discriminate.
  - eexists. split; [reflexivity|]. simpl.
    apply map_in_place_inr in Hrun as [Hrows _].
    apply (Forall2_Forall_l _ _ _ _ _ Hpresent Hrows).
    intros r r' _ (u & Hu & ->) field Hfield.
    apply count_columns_inr in Hu as [Hin _].
    destruct (Hin field Hfield) as (v & n & Hv & Hn & Hlook).
    exists v. split; [exact Hv|]. injection Hn as <-.
    unfold merge_row. apply lookup_union_Some_l. exact Hlook.
Qed.

Lemma count_tokens_byte_length_witness :
  Forall (fun r : gmap string value =>
            forall field, field ∈ ["body"] -> is_Some (r !! field))
    (rows (dataset Fixture.two_rows)) /\
  exists self',
    count_tokens Fixture.env ["body"] None Fixture.two_rows = (inr tt, self') /\
    Forall2 (fun r r' =>
               forall field, field ∈ ["body"] ->
                 exists v, r !! field = Some v /\
                           r' !! ("__byte_count__" ++ field)%string
                           = Some (VInt (byte_len (py_str Fixture.env v))))
            (rows (dataset Fixture.two_rows)) (rows (dataset self')).
Proof.
  assert (H : Forall (fun r : gmap string value =>
                        forall field, field ∈ ["body"] -> is_Some (r !! field))
                (rows (dataset Fixture.two_rows))).
  { repeat constructor; intros field Hf;
      apply list_elem_of_singleton in Hf as ->; vm_compute; eauto. }
  split; [exact H|].
  exact (proj1 (count_tokens_byte_length Fixture.env ["body"] Fixture.two_rows H)).
Defined.

(** C4 as stated fails: the counter does not look at the schema, and on
    a dataset without rows a field that the schema lacks raises
    nothing. *)
Lemma count_tokens_missing_field_counterexample :
  features (dataset Fixture.no_rows) !! "missing" = None /\
  count_tokens Fixture.env ["missing"] None Fixture.no_rows
  = (inr tt, {| dataset := dataset Fixture.no_rows;
                log := [LogInfo "count_tokens" ["missing"]] |}).
Proof. split; reflexivity. Qed.

(** C4, as the code has it: the counter has no check of the schema.
    On a dataset with at least one row, a listed field that the schema
    lacks makes the call raise and leaves the pipeline as it was: a
    tokenizer that cannot be loaded raises its load error before any
    row; otherwise the call fails while the first row is mapped, without
    a tokenizer with the missing-key error of the first listed field
    that the schema lacks, with a tokenizer with that error or with the
    error of the tokenizer on a listed field before it. *)
Theorem count_tokens_missing_field (env : Capabilities) (fields : list string)
  (tokenizer : option string) (self : Galactic) (field : string)
  (Hconforms : conforms (dataset self))
  (Hrows : rows (dataset self) <> [])
  (Hfield : field ∈ fields)
  (Hmissing : features (dataset self) !! field = None) :
  exists r rs before first after,
    rows (dataset self) = r :: rs /\
    fields = before ++ first :: after /\
    features (dataset self) !! first = None /\
    (forall g, g ∈ before -> is_Some (features (dataset self) !! g)) /\
    match tokenizer with
    | None =>
        count_columns (count_bytes env) "__byte_count__" r fields ∅
        = inl (KeyError first) /\
        count_tokens env fields None self = (inl (KeyError first), self)
    | Some name =>
        match AutoTokenizer_from_pretrained env name with
        | inl e => count_tokens env fields (Some name) self = (inl e, self)
        | inr tok =>
            exists e,
              count_columns (count_ids env tok) "__token_count__" r fields ∅
              = inl e /\
              count_tokens env fields (Some name) self = (inl e, self) /\
              (e = KeyError first \/
               exists g v, g ∈ before /\ r !! g = Some v /\
                           input_ids tok (py_str env v) = inl e)
        end
    end.
Proof.
  destruct (rows (dataset self)) as [|r rs] eqn:Hrs; [congruence|]. clear Hrows.
  unfold conforms in Hconforms. rewrite Hrs in Hconforms.
  apply Forall_cons in Hconforms as [Hr _].
  assert (Hnone : r !! field = None).
  { apply eq_None_not_Some. rewrite Hr, Hmissing. intros [x Hx]. discriminate. }
  destruct (first_missing_field r fields field Hfield Hnone)
    as (before & first & after & -> & Hfirst & Hbefore).
  exists r, rs, before, first, after.
  split; [reflexivity|]. split; [reflexivity|]. split.
  { apply eq_None_not_Some. rewrite <- Hr, Hfirst. intros [x Hx]. discriminate. }
  split; [intros g Hg; apply Hr, Hbefore, Hg|].
  destruct tokenizer as [name|].
  - destruct (AutoTokenizer_from_pretrained env name) as [e|tok] eqn:Hload.
    + unfold count_tokens, bind, lift. rewrite Hload. reflexivity.
    + destruct (count_columns_missing (count_ids env tok) "__token_count__"
                  r before after first ∅ Hfirst Hbefore) as (e & He & Hwhy).
      exists e. split; [exact He|]. split.
      * unfold count_tokens, bind. unfold lift at 1. rewrite Hload.
        unfold ret. cbn [fst snd].
        rewrite (map_in_place_first_error _ self r rs e Hrs He). reflexivity.
      * destruct Hwhy as [-> | (g & v & Hg & Hv & Hfail)]; [left; reflexivity|].
        right. exists g, v. split; [exact Hg|]. split; [exact Hv|].
        unfold count_ids in Hfail.
        destruct (input_ids tok (py_str env v)) as [e0|ids];
          simpl in Hfail; [injection Hfail as ->; reflexivity | discriminate Hfail].
  - destruct (count_columns_missing (count_bytes env) "__byte_count__"
                r before after first ∅ Hfirst Hbefore) as (e & He & Hwhy).
    assert (Hkey : e = KeyError first).
    { destruct Hwhy as [-> | (g & v & _ & _ & Hfail)];
        [reflexivity | discriminate Hfail]. }
    subst e. split; [exact He|].
    unfold count_tokens, bind, ret. cbn [fst snd].
    rewrite (map_in_place_first_error _ self r rs _ Hrs He). reflexivity.
Qed.

Lemma count_tokens_missing_field_witness :
  conforms (dataset Fixture.two_rows) /\
  rows (dataset Fixture.two_rows) <> [] /\
  "absent" ∈ ["body"; "missing"; "absent"] /\
  features (dataset Fixture.two_rows) !! "absent" = None /\
  exists r rs before first after,
    rows (dataset Fixture.two_rows) = r :: rs /\
    ["body"; "missing"; "absent"] = before ++ first :: after /\
    features (dataset Fixture.two_rows) !! first = None /\
    (forall g, g ∈ before -> is_Some (features (dataset Fixture.two_rows) !! g)) /\
    count_columns (count_bytes Fixture.env) "__byte_count__" r
      ["body"; "missing"; "absent"] ∅
    = inl (KeyError first) /\
    count_tokens Fixture.env ["body"; "missing"; "absent"] None Fixture.two_rows
    = (inl (KeyError first), Fixture.two_rows).
Proof.
  assert (Hc : conforms (dataset Fixture.two_rows)).
  { unfold conforms. cbn [Fixture.two_rows dataset rows features].
    apply Forall_cons; split; [|apply Forall_cons; split; [|constructor]];
      intros f;
      (destruct (decide (f = "body")) as [->|Hne];
       [rewrite !lookup_singleton_eq; split; eauto
       |rewrite !lookup_singleton_ne by congruence;
        split; intros [x Hx]; discriminate]). }
  assert (Hr : rows (dataset Fixture.two_rows) <> []) by discriminate.
  assert (Hf : "absent" ∈ ["body"; "missing"; "absent"]) by (right; right; left).
  assert (Hm : features (dataset Fixture.two_rows) !! "absent" = None)
    by reflexivity.
  split; [exact Hc|]. split; [exact Hr|]. split; [exact Hf|]. split; [exact Hm|].
  exact (count_tokens_missing_field Fixture.env ["body"; "missing"; "absent"] None
           Fixture.two_rows "absent" Hc Hr Hf Hm).
Defined.

(** The error names the first of the absent fields, and a tokenizer
    that cannot be loaded fails before the rows are looked at. *)
Example count_tokens_first_absent :
  count_tokens Fixture.env ["body"; "missing"; "absent"] None Fixture.two_rows
  = (inl (KeyError "missing"), Fixture.two_rows) /\
  count_tokens offline ["missing"] (Some "nope") Fixture.two_rows
  = (inl (LoadError "nope"), Fixture.two_rows).
Proof. split; reflexivity. Qed.

(** ** The language identifier *)

(** On a string, [detect_] queries the model with the newlines
    replaced; that is the branch of [isinstance(sample[field], str)]. *)
Lemma detect_language_str (env : Capabilities) (model : FastText)
  (field : string) (sample : gmap string value) (s : list N) :
  sample !! field = Some (VStr s) ->
  detect_language_ env model field sample
  = (letE p := predict model (Text.replace_char cp_newline cp_space s) in
     letE l := top_label p in
     inr {[ "__language" := VStr l ]}).
Proof. intros H. unfold detect_language_, getitem. rewrite H. reflexivity. Qed.

(** C6, where the code departs from it: for a value that is not a
    string the model is queried with [str(value)] as it is, newlines
    included.  The printed form of a two-dimensional array has a
    newline; the string branch would query "[[1 2]  [3 4]]", the other
    branch passes the newline on, and a model that, like fastText,
    refuses a newline makes the whole call fail. *)
Theorem detect_language_object_newline (env : Capabilities) (model : FastText) :
  detect_language_ env model "arr" {[ "arr" := VObject Fixture.array_text ]}
  = (letE p := predict model Fixture.array_text in
     letE l := top_label p in
     inr {[ "__language" := VStr l ]}) /\
  In cp_newline Fixture.array_text /\
  Text.replace_char cp_newline cp_space Fixture.array_text
  = T "[[1 2]  [3 4]]" /\
  detect_language_ env model "arr" {[ "arr" := VStr Fixture.array_text ]}
  = (letE p := predict model (T "[[1 2]  [3 4]]") in
     letE l := top_label p in
     inr {[ "__language" := VStr l ]}) /\
  detect_language Fixture.env "arr" Fixture.array_rows
  = (inl (ValueError "predict processes one line at a time (remove '\n')"),
     Fixture.array_rows) /\
  predict Fixture.lid (T "[[1 2]  [3 4]]")
  = inr {| labels := [T "__label__en"]; probabilities := [(99 / 100)%R] |}.
Proof.
  split; [reflexivity|].
  split; [vm_compute; tauto|].
  split; [reflexivity|].
  split; [reflexivity|].
  split; reflexivity.
Qed.

(** ** The spam classifier *)

Lemma bindE_inr {A B} (m : exn + A) (k : A -> exn + B) (b : B) :
  bindE m k = inr b -> exists a, m = inr a /\ k a = inr b.
Proof. destruct m as [e|a]; simpl; [discriminate | eauto]. Qed.

Lemma getitem_inr (sample : gmap string value) (field : string) (v : value) :
  getitem sample field = inr v -> sample !! field = Some v.
Proof. unfold getitem. destruct (sample !! field); congruence. Qed.

Lemma as_text_inr (v : value) (s : list N) : as_text v = inr s -> v = VStr s.
Proof. destruct v; simpl; congruence. Qed.

Lemma merge_spam_columns (field : string) (spam : bool) (prob : R)
  (r : gmap string value) :
  merge_row (spam_columns field spam prob ∅) r = spam_columns field spam prob r.
Proof.
  unfold spam_columns. rewrite !merge_insert. unfold merge_row.
  rewrite (left_id_L ∅ (∪)). reflexivity.
Qed.

(** What [detect_] does with the answer of the classifier. *)
Lemma detect_seo_spam_row (env : Capabilities) (model : FastText)
  (field : string) (sample u : gmap string value) :
  detect_seo_spam_ env model field sample = inr u ->
  exists s result label prob,
    sample !! field = Some (VStr s) /\
    predict model (str_lower env (Text.replace_char cp_newline cp_space s))
    = inr result /\
    top_label result = inr label /\
    index (probabilities result) 0 = inr prob /\
    u = spam_columns field
          (bool_decide (label = T "discard"))
          (if bool_decide (label = T "discard") then prob else (1 - prob)%R) ∅.
Proof.
  unfold detect_seo_spam_. intros H.
  apply bindE_inr in H as (v & Hv & H). apply getitem_inr in Hv.
  apply bindE_inr in H as (s & Hs & H). apply as_text_inr in Hs as ->.
  apply bindE_inr in H as (result & Hres & H).
  apply bindE_inr in H as (label & Hlab & H).
  apply bindE_inr in H as (prob & Hprob & H).
  exists s, result, label, prob. repeat (split; [assumption|]).
  destruct (bool_decide (label = T "discard")); injection H as <-; reflexivity.
Qed.

(** C2: in every row that the spam classifier has processed, a
    predicted label "discard" gives the flag true and the returned
    probability, any other label gives the flag false and one minus the
    returned probability; ("keep", 0.9) gives (false, 0.1) and
    ("discard", 0.8) gives (true, 0.8). *)
Theorem detect_seo_spam_calibration (env : Capabilities) (field : string)
  (self self' : Galactic)
  (Hrun : detect_seo_spam env field self = (inr tt, self')) :
  (exists model,
     load_fasttext env "seo_spam.ftz" = inr model /\
     Forall2 (fun r r' =>
                exists s result label prob,
                  r !! field = Some (VStr s) /\
                  predict model
                    (str_lower env (Text.replace_char cp_newline cp_space s))
                  = inr result /\
                  top_label result = inr label /\
                  index (probabilities result) 0 = inr prob /\
                  r' = spam_columns field
                         (bool_decide (label = T "discard"))
                         (if bool_decide (label = T "discard")
                          then prob else (1 - prob)%R) r)
             (rows (dataset self)) (rows (dataset self'))) /\
  (forall model sample s,
     sample !! field = Some (VStr s) ->
     predict model (str_lower env (Text.replace_char cp_newline cp_space s))
     = inr {| labels := [T "__label__keep"]; probabilities := [0.9%R] |} ->
     detect_seo_spam_ env model field sample
     = inr (spam_columns field false 0.1%R ∅)) /\
  (forall model sample s,
     sample !! field = Some (VStr s) ->
     predict model (str_lower env (Text.replace_char cp_newline cp_space s))
     = inr {| labels := [T "__label__discard"]; probabilities := [0.8%R] |} ->
     detect_seo_spam_ env model field sample
     = inr (spam_columns field true 0.8%R ∅)).
Proof.
  split; [|split].
  - revert Hrun. unfold detect_seo_spam, bind, get_dataset.
    destruct (features (dataset self) !! field) as [dtype|]; [|discriminate].
    destruct (negb (String.eqb dtype "string")); [discriminate|].
    unfold lift at 1.
    destruct (load_fasttext env "seo_spam.ftz") as [e|model]; [discriminate|].
    destruct (map_in_place (detect_seo_spam_ env model field) self)
      as [[e|[]] s1] eqn:Hmap; [discriminate|].
    intros [= <-]. exists model. split; [reflexivity|]. simpl.
    apply map_in_place_inr in Hmap as [Hrows _].
    eapply Forall2_impl; [exact Hrows|].
    intros r r' (u & Hu & ->).
    apply detect_seo_spam_row in Hu as (s & result & label & prob & H1 & H2 & H3 & H4 & ->).
    exists s, result, label, prob. repeat (split; [assumption|]).
    apply merge_spam_columns.
  - intros model sample s Hs Hp. unfold detect_seo_spam_, getitem.
    rewrite Hs. simpl. rewrite Hp. simpl.
    unfold spam_columns. rewrite insert_empty. do 4 f_equal. lra.
  - intros model sample s Hs Hp. unfold detect_seo_spam_, getitem.
    rewrite Hs. simpl. rewrite Hp. reflexivity.
Qed.

Lemma detect_seo_spam_calibration_witness :
  let self' := snd (detect_seo_spam Fixture.env "body" Fixture.two_rows) in
  detect_seo_spam Fixture.env "body" Fixture.two_rows = (inr tt, self') /\
  exists model,
    load_fasttext Fixture.env "seo_spam.ftz" = inr model /\
    Forall2 (fun r r' =>
               exists s result label prob,
                 r !! "body" = Some (VStr s) /\
                 predict model
                   (str_lower Fixture.env
                      (Text.replace_char cp_newline cp_space s))
                 = inr result /\
                 top_label result = inr label /\
                 index (probabilities result) 0 = inr prob /\
                 r' = spam_columns "body"
                        (bool_decide (label = T "discard"))
                        (if bool_decide (label = T "discard")
                         then prob else (1 - prob)%R) r)
            (rows (dataset Fixture.two_rows)) (rows (dataset self')).
Proof.
  intros self'.
  assert (Hrun : detect_seo_spam Fixture.env "body" Fixture.two_rows
                 = (inr tt, self')) by reflexivity.
  split; [exact Hrun|].
  exact (proj1 (detect_seo_spam_calibration Fixture.env "body"
                  Fixture.two_rows self' Hrun)).
Defined.

(** ** The perplexity scorer *)

(** What [calc_] of the pythia branch writes. *)
Lemma calc_pythia_row (model : Generator) (tokenizer : Tokenizer)
  (field : string) (sample u : gmap string value) :
  calc_pythia model tokenizer field sample = inr u ->
  exists s token_ids log_probs,
    sample !! field = Some (VStr s) /\
    input_ids tokenizer s = inr token_ids /\
    log_probs_of model (convert_ids_to_tokens tokenizer token_ids)
    = inr log_probs /\
    u = {[ "__perplexity" :=
             VFloat (exp (- np_sum log_probs / IZR (byte_len s))) ]}.
Proof.
  unfold calc_pythia. intros H.
  apply bindE_inr in H as (v & Hv & H). apply getitem_inr in Hv.
  apply bindE_inr in H as (s & Hs & H). apply as_text_inr in Hs as ->.
  apply bindE_inr in H as (token_ids & Hids & H).
  apply bindE_inr in H as (log_probs & Hlp & H).
  injection H as <-. exists s, token_ids, log_probs. auto.
Qed.



(** "héllo" under a tokenizer of five tokens, each of log-probability
    -1: the score is exp(5/6), by the 6 bytes, and not exp(5/5), by the
    5 tokens. *)
Example calc_pythia_hello :
  calc_pythia Fixture.generator Fixture.char_tokenizer "body"
    {[ "body" := VStr Fixture.hello ]}
  = inr {[ "__perplexity" := VFloat (exp (5 / 6)) ]} /\
  exp (5 / 6) <> exp (5 / 5).
Proof.
  split.
  - unfold calc_pythia, getitem. rewrite lookup_singleton_eq. simpl.
    do 4 f_equal.
    change (Text.utf8_width 104 + (Text.utf8_width 233 + (Text.utf8_width 108
            + (Text.utf8_width 108 + (Text.utf8_width 111 + 0)))))%Z with 6%Z.
    lra.
  - intros H. apply exp_inv in H. lra.
Qed.

(** C3 as stated fails: a call that leaves the dataset argument out
    while it passes a language takes the default "wikipedia", raises
    nothing and writes [__perplexity]. *)
Lemma calc_perplexity_kenlm_requires_both_counterexample :
  let out := calc_perplexity Fixture.env "body" (Some "kenlm")
               (Some (Some "en")) None Fixture.two_rows in
  fst out = inr tt /\
  has_column (dataset (snd out)) "__perplexity" = true /\
  (rows (dataset (snd out)) !! 0%nat) ≫= (fun r => r !! "__perplexity")
  = Some (VFloat (IZR 6)).
Proof.
  intros out. split; [reflexivity|]. split; [vm_compute; reflexivity|].
  reflexivity.
Qed.

(** C3, as the code has it: with the kenlm backend, a language or a
    dataset that is passed as [None] makes the call raise a
    [ValueError] before any row is processed and leaves the pipeline as
    it was, so no [__perplexity] is written; when the field is a string
    column of the schema the error is the configuration error.  An
    argument that is left out is not [None]: it takes the default of
    the signature. *)
Theorem calc_perplexity_kenlm_requires_both (env : Capabilities)
  (field : string) (model : option string)
  (language dataset_name : option (option string)) (self : Galactic)
  (Hmodel : default "kenlm" model = "kenlm")
  (Hnone : language = Some None \/ dataset_name = Some None) :
  (exists msg,
     calc_perplexity env field model language dataset_name self
     = (inl (ValueError msg), self) /\
     (features (dataset self) !! field = Some "string" ->
      ValueError msg = kenlm_needs_both)) /\
  calc_perplexity env field model None None
  = calc_perplexity env field model (Some (Some "en")) (Some (Some "wikipedia")).
Proof.
  split; [|reflexivity].
  unfold calc_perplexity. rewrite Hmodel.
  assert (Hld : default (Some "en") language = None \/
                default (Some "wikipedia") dataset_name = None).
  { destruct Hnone as [-> | ->]; [left | right]; reflexivity. }
  revert Hld.
  generalize (default (Some "en") language).
  generalize (default (Some "wikipedia") dataset_name).
  intros d l Hld.
  unfold calc_perplexity_body, bind, get_dataset.
  destruct (features (dataset self) !! field) as [dtype|] eqn:Hfield.
  - destruct (String.eqb dtype "string") eqn:Hdtype; simpl negb; cbv iota.
    + change (String.eqb "kenlm" "pythia") with false.
      change (String.eqb "kenlm" "kenlm") with true. cbv iota.
      assert (Hraise : match l with
                       | Some language0 =>
                           match d with
                           | Some dataset0 =>
                               letM kenlm :=
                                 lift (KenlmModel_from_pretrained env dataset0
                                         language0) in
                               ret (calc_kenlm kenlm field)
                           | None => raise kenlm_needs_both
                           end
                       | None => raise kenlm_needs_both
                       end = raise kenlm_needs_both).
      { destruct Hld as [-> | ->]; [reflexivity|]. destruct l; reflexivity. }
      unfold bind in Hraise. rewrite Hraise. unfold raise.
      eexists. split; [reflexivity|]. intros _. reflexivity.
    + eexists. split; [reflexivity|]. intros [= ->]. discriminate Hdtype.
  - eexists. split; [reflexivity|]. discriminate.
Qed.

Lemma calc_perplexity_kenlm_requires_both_witness :
  default "kenlm" (Some "kenlm") = "kenlm" /\
  (Some (Some "en") = Some None \/ Some (@None string) = Some None) /\
  exists msg,
    calc_perplexity Fixture.env "body" (Some "kenlm") (Some (Some "en"))
      (Some None) Fixture.two_rows
    = (inl (ValueError msg), Fixture.two_rows) /\
    (features (dataset Fixture.two_rows) !! "body" = Some "string" ->
     ValueError msg = kenlm_needs_both).
Proof.
  split; [reflexivity|]. split; [right; reflexivity|].
  exact (proj1 (calc_perplexity_kenlm_requires_both Fixture.env "body"
                  (Some "kenlm") (Some (Some "en")) (Some None)
                  Fixture.two_rows eq_refl (or_intror eq_refl))).
Defined.

(** * Further properties of the operations *)

(** ** The row mapper keeps the rows in place *)

Lemma Dataset_map_length (f : gmap string value -> exn + gmap string value)
  (ds ds' : Dataset) :
  Dataset_map f ds = inr ds' -> length (rows ds') = length (rows ds).
Proof.
  intros H. apply Dataset_map_rows in H. symmetry.
  apply (Forall2_length _ _ _ H).
Qed.

Lemma merge_row_other (u r : gmap string value) (k : string) :
  u !! k = None -> merge_row u r !! k = r !! k.
Proof. intros H. unfold merge_row. apply lookup_union_r. exact H. Qed.

(** ** The literal matcher, continued *)

Lemma tag_fields_insert_other (env : Capabilities) (regexp : Re.pattern)
  (sample : gmap string value) (fields : list string) (k : string) (v : value) :
  k ∉ fields ->
  tag_fields env regexp (<[ k := v ]> sample) fields
  = tag_fields env regexp sample fields.
Proof.
  induction fields as [|f fields IH]; intros Hk; [reflexivity|].
  apply not_elem_of_cons in Hk as [Hne Hk]. simpl.
  rewrite lookup_insert_ne by exact Hne. rewrite (IH Hk). reflexivity.
Qed.

(** X1: Running the matcher again with the same arguments changes nothing
    in the rows, provided the tag column is not itself one of the
    fields that are searched. *)
Theorem tag_string_idempotent (env : Capabilities) (fields : list string)
  (values : list (list N)) (tag : string) (self : Galactic)
  (Hfields : ("__tag__" ++ tag)%string ∉ fields) :
  exists once twice,
    tag_string env fields values tag self = (inr tt, once) /\
    tag_string env fields values tag once = (inr tt, twice) /\
    rows (dataset twice) = rows (dataset once).
Proof.
  destruct (tag_string_run env fields values tag self) as (once & Hone & Hrows1).
  destruct (tag_string_run env fields values tag once) as (twice & Htwo & Hrows2).
  exists once, twice. split; [exact Hone|]. split; [exact Htwo|].
  rewrite Hrows2, Hrows1, map_map. apply map_ext. intros r.
  rewrite (tag_fields_insert_other env _ r fields _ _ Hfields).
  apply insert_insert_eq.
Qed.

Lemma tag_string_idempotent_witness :
  ("__tag__junk" ∉ ["body"]) /\
  exists once twice,
    tag_string Fixture.env ["body"] [T "scam"] "junk" Fixture.two_rows
    = (inr tt, once) /\
    tag_string Fixture.env ["body"] [T "scam"] "junk" once = (inr tt, twice) /\
    rows (dataset twice) = rows (dataset once).
Proof.
  assert (H : "__tag__junk" ∉ ["body"]).
  { intros H. apply list_elem_of_singleton in H. discriminate H. }
  split; [exact H|].
  exact (tag_string_idempotent Fixture.env ["body"] [T "scam"] "junk"
           Fixture.two_rows H).
Defined.

(** When the tag column is itself searched, a second run can flip the
    tag: "False", written by the first run, contains the literal. *)
Example tag_string_not_idempotent :
  let once := snd (tag_string Fixture.env ["__tag__junk"] [T "False"] "junk"
                     Fixture.two_rows) in
  let twice := snd (tag_string Fixture.env ["__tag__junk"] [T "False"] "junk"
                      once) in
  (rows (dataset once) !! 0%nat) ≫= (fun r => r !! "__tag__junk")
  = Some (VBool false) /\
  (rows (dataset twice) !! 0%nat) ≫= (fun r => r !! "__tag__junk")
  = Some (VBool true).
Proof. split; vm_compute; reflexivity. Qed.

(** X2: The matcher never fails; it logs the overwrite warning exactly when
    the tag column exists already, then the trace of the operation. *)
Theorem tag_string_overwrite_warning (env : Capabilities)
  (fields : list string) (values : list (list N)) (tag : string)
  (self : Galactic) :
  exists self',
    tag_string env fields values tag self = (inr tt, self') /\
    log self'
    = log self
      ++ (if has_column (dataset self) ("__tag__" ++ tag)%string
          then [LogWarning ("Tag " ++ tag ++
                  " already exists. This will overwrite the existing tag.")]
          else [])
      ++ [LogInfo "tag_string" fields].
Proof.
  unfold tag_string, bind, get_dataset, lift, re_compile.
  rewrite compile_escaped.
  set (f := tag_ env (literals values) fields tag).
  set (g := fun r : gmap string value =>
              ({[ ("__tag__" ++ tag)%string :=
                    VBool (tag_fields env (literals values) r fields) ]}
               : gmap string value)).
  assert (Hf : forall r, f r = inr (g r)) by reflexivity.
  destruct (has_column (dataset self) ("__tag__" ++ tag)); simpl;
    match goal with
    | |- context [map_in_place f ?s] =>
        destruct (map_in_place_pure f g s Hf) as (s2 & -> & _ & Hlog)
    end;
    (eexists; split; [reflexivity|]; simpl; rewrite Hlog; simpl).
  - rewrite <- app_assoc. reflexivity.
  - reflexivity.
Qed.

(** X3: The matcher keeps the number of rows and leaves every column but
    its tag column as it was. *)
Theorem tag_string_other_columns (env : Capabilities) (fields : list string)
  (values : list (list N)) (tag : string) (self : Galactic) :
  exists self',
    tag_string env fields values tag self = (inr tt, self') /\
    length (rows (dataset self')) = length (rows (dataset self)) /\
    Forall2 (fun r r' =>
               forall k, k <> ("__tag__" ++ tag)%string -> r' !! k = r !! k)
            (rows (dataset self)) (rows (dataset self')).
Proof.
  destruct (tag_string_run env fields values tag self) as (self' & Hrun & Hrows).
  exists self'. split; [exact Hrun|]. rewrite Hrows. split.
  - apply length_map.
  - apply Forall2_map_fun. intros r k Hk. apply lookup_insert_ne. auto.
Qed.

(** X4: The tag of a row depends on the set of listed fields only: their
    order, where the loop stops, and repetitions do not show. *)
Theorem tag_fields_same_set (env : Capabilities) (regexp : Re.pattern)
  (tag : string) (sample : gmap string value) (fields fields' : list string)
  (Hsame : forall f, f ∈ fields <-> f ∈ fields') :
  tag_ env regexp fields tag sample = tag_ env regexp fields' tag sample.
Proof.
  unfold tag_. do 3 f_equal. apply Bool.eq_iff_eq_true.
  rewrite !tag_fields_true. split; intros (f & v & Hin & H); exists f, v;
    (split; [apply Hsame, Hin | exact H]).
Qed.

Lemma tag_fields_same_set_witness :
  (forall f, f ∈ ["body"; "title"] <-> f ∈ ["title"; "body"; "title"]) /\
  tag_ Fixture.env [T "scam"] ["body"; "title"] "junk"
    {[ "body" := VStr (T "This is a scam") ]}
  = tag_ Fixture.env [T "scam"] ["title"; "body"; "title"] "junk"
      {[ "body" := VStr (T "This is a scam") ]}.
Proof.
  assert (H : forall f : string,
             f ∈ ["body"; "title"] <-> f ∈ ["title"; "body"; "title"]).
  { intros f. rewrite !elem_of_cons. rewrite !elem_of_nil. tauto. }
  split; [exact H|].
  exact (tag_fields_same_set Fixture.env [T "scam"] "junk"
           {[ "body" := VStr (T "This is a scam") ]} _ _ H).
Defined.

(** X5: Escaping, joining and compiling any list of literals succeeds, and
    the compiled pattern finds exactly the strings that contain one of
    the literals; for no literals, every string. *)
Theorem escaped_literals_search (values : list (list N)) :
  exists r,
    Re.compile (Text.join [cp_bar] (map Re.escape values)) = Some r /\
    forall s,
      Re.search r s = true <->
      values = [] \/ exists v pre post, v ∈ values /\ s = pre ++ v ++ post.
Proof.
  exists (literals values). split; [apply compile_escaped|].
  intros s. destruct values as [|v values].
  - simpl literals. rewrite search_empty_pattern. tauto.
  - cbn [literals]. rewrite search_substring. split.
    + intros H. right. exact H.
    + intros [H | H]; [discriminate H | exact H].
Qed.

(** ** Splitting and joining *)

Lemma split_go_nonempty (sep : list N) (k : nat) (cur s : list N) :
  Text.split_go sep k cur s <> [].
Proof.
  revert k cur; induction s as [|c s IH]; intros k cur; simpl; [discriminate|].
  destruct k; [|apply IH].
  destruct (Text.starts_with sep (c :: s)); [discriminate | apply IH].
Qed.

Lemma join_cons_nonempty (sep a : list N) (l : list (list N)) :
  l <> [] -> Text.join sep (a :: l) = a ++ sep ++ Text.join sep l.
Proof. destruct l; [intros H; exfalso; apply H|]; reflexivity. Qed.

Lemma split_go_join (sep : list N) (Hsep : sep <> []) (s : list N) :
  forall k cur, Text.join sep (Text.split_go sep k cur s) = rev cur ++ drop k s.
Proof.
  induction s as [|c s IH]; intros k cur.
  - simpl. rewrite drop_nil, app_nil_r. reflexivity.
  - destruct k as [|k]; [|simpl; apply IH].
    cbn [Text.split_go].
    destruct (Text.starts_with sep (c :: s)) eqn:Hmatch.
    + apply starts_with_prefix in Hmatch as [t Ht].
      rewrite join_cons_nonempty by apply split_go_nonempty.
      rewrite IH. destruct sep as [|d sep']; [exfalso; apply Hsep; reflexivity|].
      simpl in Ht. injection Ht as -> ->. simpl length. simpl Nat.pred.
      rewrite drop_app_length. reflexivity.
    + rewrite IH. simpl. rewrite <- app_assoc. reflexivity.
Qed.

(** Joining the pieces of a split with the separator gives the text
    back: [sep.join(s.split(sep)) == s]. *)
Theorem split_join (sep s : list N) (Hsep : sep <> []) :
  Text.join sep (Text.split sep s) = s.
Proof. unfold Text.split. rewrite (split_go_join sep Hsep). reflexivity. Qed.

Lemma split_join_witness :
  T "__label__" <> [] /\
  Text.join (T "__label__") (Text.split (T "__label__") (T "x__label__en"))
  = T "x__label__en".
Proof.
  assert (H : T "__label__" <> []) by discriminate.
  split; [exact H|]. exact (split_join (T "__label__") (T "x__label__en") H).
Defined.

Lemma split_go_no_match (sep cur s : list N) :
  Text.contains sep s = false -> Text.split_go sep 0 cur s = [rev cur ++ s].
Proof.
  revert cur; induction s as [|c s IH]; intros cur H.
  - simpl. rewrite app_nil_r. reflexivity.
  - simpl in H. apply orb_false_iff in H as [Hhere Hlater].
    cbn [Text.split_go]. rewrite Hhere, (IH _ Hlater). simpl.
    rewrite <- app_assoc. reflexivity.
Qed.

(** ** The language identifier, continued *)

(** X9: The language code is what follows the marker [__label__] in the
    best label; a label without the marker makes the row, and with it
    the whole call, fail. *)
Theorem top_label_code (code : list N) (others : list (list N))
  (probs : list R) (Hcode : Text.contains (T "__label__") code = false) :
  top_label {| labels := (T "__label__" ++ code) :: others;
               probabilities := probs |} = inr code /\
  top_label {| labels := code :: others; probabilities := probs |}
  = inl IndexError.
Proof.
  unfold top_label, index. cbn [labels nth_error bindE]. split.
  - unfold Text.split.
    change (Text.split_go (T "__label__") 0 [] (T "__label__" ++ code))
      with ([] :: Text.split_go (T "__label__") 0 [] code).
    rewrite (split_go_no_match _ _ _ Hcode). reflexivity.
  - unfold Text.split. rewrite (split_go_no_match _ _ _ Hcode). reflexivity.
Qed.

Lemma top_label_code_witness :
  Text.contains (T "__label__") (T "en") = false /\
  top_label {| labels := [T "__label__" ++ T "en"];
               probabilities := [(99 / 100)%R] |} = inr (T "en") /\
  top_label {| labels := [T "en"]; probabilities := [(99 / 100)%R] |}
  = inl IndexError.
Proof.
  split; [reflexivity|].
  exact (top_label_code (T "en") [] [(99 / 100)%R] eq_refl).
Defined.

Lemma replace_char_gone (old new : N) (s : list N) :
  old <> new -> ~ In old (Text.replace_char old new s).
Proof.
  intros Hne. unfold Text.replace_char. induction s as [|c s IH]; simpl; [tauto|].
  intros [H|H]; [|auto].
  destruct (N.eqb_spec c old) as [_|Hc]; congruence.
Qed.

Lemma detect_language_row (env : Capabilities) (model : FastText)
  (field : string) (sample u : gmap string value) :
  detect_language_ env model field sample = inr u ->
  exists v p l,
    sample !! field = Some v /\
    predict model (language_query env v) = inr p /\
    top_label p = inr l /\
    u = {[ "__language" := VStr l ]}.
Proof.
  unfold detect_language_. intros H.
  apply bindE_inr in H as (v & Hv & H). apply getitem_inr in Hv.
  exists v.
  assert (Hq : (letE p := predict model (language_query env v) in
                letE l := top_label p in
                inr {[ "__language" := VStr l ]}) = inr u)
    by (destruct v; exact H).
  apply bindE_inr in Hq as (p & Hp & Hq).
  apply bindE_inr in Hq as (l & Hl & Hq).
  injection Hq as <-. exists p, l. auto.
Qed.

(** X10: When [detect_language] succeeds, the field is a column of the
    schema, and every row has [__language] set to the code of the best
    label that the model gives for the text of the field: for a string
    its text with the newlines replaced by spaces, hence without a
    newline; for another value [str] of it, as it is. *)
Theorem detect_language_rows (env : Capabilities) (field : string)
  (self self' : Galactic)
  (Hrun : detect_language env field self = (inr tt, self')) :
  is_Some (features (dataset self) !! field) /\
  (forall s, ~ In cp_newline (language_query env (VStr s))) /\
  exists model,
    load_fasttext env "lid.176.ftz" = inr model /\
    Forall2 (fun r r' =>
               exists v p l,
                 r !! field = Some v /\
                 predict model (language_query env v) = inr p /\
                 top_label p = inr l /\
                 r' = <[ "__language" := VStr l ]> r)
            (rows (dataset self)) (rows (dataset self')).
Proof.
  revert Hrun. unfold detect_language, bind, get_dataset, has_column.
  destruct (decide (is_Some (features (dataset self) !! field))) as [Hcol|Hcol].
  - rewrite bool_decide_eq_true_2 by exact Hcol. cbn [negb]. unfold lift at 1.
    destruct (load_fasttext env "lid.176.ftz") as [e|model]; [discriminate|].
    destruct (map_in_place (detect_language_ env model field) self)
      as [[e|[]] s1] eqn:Hmap; [discriminate|].
    intros [= <-]. split; [exact Hcol|]. split.
    + intros s. apply replace_char_gone. discriminate.
    + exists model. split; [reflexivity|]. simpl.
      apply map_in_place_inr in Hmap as [Hrows _].
      eapply Forall2_impl; [exact Hrows|].
      intros r r' (u & Hu & ->).
      apply detect_language_row in Hu as (v & p & l & H1 & H2 & H3 & ->).
      exists v, p, l. repeat (split; [assumption|]). apply merge_singleton.
  - rewrite bool_decide_eq_false_2 by exact Hcol. discriminate.
Qed.

Lemma detect_language_rows_witness :
  let self' := snd (detect_language Fixture.env "body" Fixture.two_rows) in
  detect_language Fixture.env "body" Fixture.two_rows = (inr tt, self') /\
  is_Some (features (dataset Fixture.two_rows) !! "body") /\
  (forall s, ~ In cp_newline (language_query Fixture.env (VStr s))) /\
  exists model,
    load_fasttext Fixture.env "lid.176.ftz" = inr model /\
    Forall2 (fun r r' =>
               exists v p l,
                 r !! "body" = Some v /\
                 predict model (language_query Fixture.env v) = inr p /\
                 top_label p = inr l /\
                 r' = <[ "__language" := VStr l ]> r)
            (rows (dataset Fixture.two_rows)) (rows (dataset self')).
Proof.
  intros self'.
  assert (Hrun : detect_language Fixture.env "body" Fixture.two_rows
                 = (inr tt, self')) by reflexivity.
  split; [exact Hrun|].
  exact (detect_language_rows Fixture.env "body" Fixture.two_rows self' Hrun).
Defined.

(** ** The regex matcher *)

Lemma tag_regex_fields_true (env : Capabilities) (regexp : list N -> bool)
  (sample : gmap string value) (fields : list string) :
  tag_regex_fields env regexp sample fields = true <->
  exists field v, field ∈ fields /\ sample !! field = Some v /\
                  regexp (py_str env v) = true.
Proof.
  induction fields as [|f fields IH]; simpl.
  - split; [discriminate|]. intros (field & v & Hin & _). inversion Hin.
  - destruct (sample !! f) as [v|] eqn:Hf.
    + assert (Hv : match v with
                   | VStr s => regexp s
                   | _ => regexp (py_str env v)
                   end = regexp (py_str env v)) by (destruct v; reflexivity).
      rewrite Hv. destruct (regexp (py_str env v)) eqn:Hs.
      * split; [intros _ | reflexivity]. exists f, v. split; [left|]; auto.
      * rewrite IH. split; intros (field & w & Hin & Hw & Hm).
        -- exists field, w. split; [right|]; auto.
        -- apply elem_of_cons in Hin as [->|Hin]; [congruence|].
           exists field, w. auto.
    + rewrite IH. split; intros (field & w & Hin & Hw & Hm).
      * exists field, w. split; [right|]; auto.
      * apply elem_of_cons in Hin as [->|Hin]; [congruence|].
        exists field, w. auto.
Qed.

Lemma tag_regex_fields_ext (env : Capabilities) (p q : list N -> bool)
  (sample : gmap string value) (fields : list string) :
  (forall s, p s = q s) ->
  tag_regex_fields env p sample fields = tag_regex_fields env q sample fields.
Proof.
  intros H. induction fields as [|f fields IH]; simpl; [reflexivity|].
  destruct (sample !! f) as [v|]; [|exact IH].
  destruct v; rewrite H, IH; reflexivity.
Qed.

Lemma tag_fields_as_regex (env : Capabilities) (r : Re.pattern)
  (sample : gmap string value) (fields : list string) :
  tag_fields env r sample fields
  = tag_regex_fields env (Re.search r) sample fields.
Proof.
  induction fields as [|f fields IH]; simpl; [reflexivity|].
  rewrite IH. reflexivity.
Qed.

Lemma tag_regex_run (env : Capabilities)
  (re_compile_any : list N -> exn + (list N -> bool))
  (fields : list string) (regex : list N) (tag : string) (self : Galactic)
  (regexp : list N -> bool) :
  re_compile_any regex = inr regexp ->
  exists self',
    tag_regex env re_compile_any fields regex tag self = (inr tt, self') /\
    rows (dataset self')
    = map (fun r => <[ ("__tag__" ++ tag)%string :=
                         VBool (tag_regex_fields env regexp r fields) ]> r)
          (rows (dataset self)).
Proof.
  intros Hc. unfold tag_regex, bind, get_dataset, lift. rewrite Hc.
  set (f := tag_regex_ env regexp fields tag).
  set (g := fun r : gmap string value =>
              ({[ ("__tag__" ++ tag)%string :=
                    VBool (tag_regex_fields env regexp r fields) ]}
               : gmap string value)).
  assert (Hf : forall r, f r = inr (g r)) by reflexivity.
  destruct (has_column (dataset self) ("__tag__" ++ tag)); simpl;
    match goal with
    | |- context [map_in_place f ?s] =>
        destruct (map_in_place_pure f g s Hf) as (s2 & -> & Hrows & _)
    end;
    (eexists; split; [reflexivity|]; simpl; rewrite Hrows; simpl;
     apply map_ext; intros r; apply merge_singleton).
Qed.

(** X6: With a pattern that compiles, [tag_regex] does not raise, and the
    tag of a row is true exactly when the pattern is found in the
    stringified value of some listed field that the row has. *)
Theorem tag_regex_matches (env : Capabilities)
  (re_compile_any : list N -> exn + (list N -> bool))
  (fields : list string) (regex : list N) (tag : string) (self : Galactic)
  (regexp : list N -> bool)
  (Hcompile : re_compile_any regex = inr regexp) :
  exists self',
    tag_regex env re_compile_any fields regex tag self = (inr tt, self') /\
    Forall2 (fun r r' =>
               exists b,
                 r' = <[ ("__tag__" ++ tag)%string := VBool b ]> r /\
                 (b = true <->
                  exists field v, field ∈ fields /\ r !! field = Some v /\
                                  regexp (py_str env v) = true))
            (rows (dataset self)) (rows (dataset self')).
Proof.
  destruct (tag_regex_run env re_compile_any fields regex tag self regexp Hcompile)
    as (self' & Hrun & Hrows).
  exists self'. split; [exact Hrun|]. rewrite Hrows.
  apply Forall2_map_fun. intros r. eexists. split; [reflexivity|].
  apply tag_regex_fields_true.
Qed.

Lemma tag_regex_matches_witness :
  fragment_re (T "scam") = inr (Re.search [T "scam"]) /\
  exists self',
    tag_regex Fixture.env fragment_re ["body"] (T "scam") "junk" Fixture.two_rows
    = (inr tt, self') /\
    Forall2 (fun r r' =>
               exists b,
                 r' = <[ "__tag__junk" := VBool b ]> r /\
                 (b = true <->
                  exists field v, field ∈ ["body"] /\ r !! field = Some v /\
                                  Re.search [T "scam"] (py_str Fixture.env v)
                                  = true))
            (rows (dataset Fixture.two_rows)) (rows (dataset self')).
Proof.
  split; [reflexivity|].
  exact (tag_regex_matches Fixture.env fragment_re ["body"] (T "scam") "junk"
           Fixture.two_rows (Re.search [T "scam"]) eq_refl).
Defined.

(** X7: A pattern that does not compile makes [tag_regex] raise the error
    of the compiler with the dataset untouched; the overwrite warning,
    which comes first, has been logged all the same. *)
Theorem tag_regex_bad_pattern (env : Capabilities)
  (re_compile_any : list N -> exn + (list N -> bool))
  (fields : list string) (regex : list N) (tag : string) (self : Galactic)
  (e : exn) (Hcompile : re_compile_any regex = inl e) :
  tag_regex env re_compile_any fields regex tag self
  = (inl e,
     {| dataset := dataset self;
        log := log self ++
               (if has_column (dataset self) ("__tag__" ++ tag)%string
                then [LogWarning
                        "Tag already exists. This will overwrite the existing tag."]
                else []) |}).
Proof.
  unfold tag_regex, bind, get_dataset, lift. rewrite Hcompile.
  destruct (has_column (dataset self) ("__tag__" ++ tag)); simpl.
  - reflexivity.
  - rewrite app_nil_r. destruct self; reflexivity.
Qed.

Lemma tag_regex_bad_pattern_witness :
  fragment_re (T "(") = inl ReError /\
  tag_regex Fixture.env fragment_re ["body"] (T "(") "junk" Fixture.two_rows
  = (inl ReError,
     {| dataset := dataset Fixture.two_rows;
        log := log Fixture.two_rows ++
               (if has_column (dataset Fixture.two_rows) "__tag__junk"
                then [LogWarning
                        "Tag already exists. This will overwrite the existing tag."]
                else []) |}).
Proof.
  split; [reflexivity|].
  exact (tag_regex_bad_pattern Fixture.env fragment_re ["body"] (T "(") "junk"
           Fixture.two_rows ReError eq_refl).
Defined.

(** X8: [tag_string] is [tag_regex] on the escaped alternation of its
    values: with a pattern compiler that, on that pattern, searches as
    the literals do, both write the same rows. *)
Theorem tag_string_is_tag_regex (env : Capabilities)
  (re_compile_any : list N -> exn + (list N -> bool))
  (fields : list string) (values : list (list N)) (tag : string)
  (self : Galactic) (regexp : list N -> bool)
  (Hcompile : re_compile_any (Text.join [cp_bar] (map Re.escape values))
              = inr regexp)
  (Hagree : forall s, regexp s = Re.search (literals values) s) :
  exists by_string by_regex,
    tag_string env fields values tag self = (inr tt, by_string) /\
    tag_regex env re_compile_any fields
      (Text.join [cp_bar] (map Re.escape values)) tag self
    = (inr tt, by_regex) /\
    rows (dataset by_string) = rows (dataset by_regex).
Proof.
  destruct (tag_string_run env fields values tag self) as (s1 & H1 & Hrows1).
  destruct (tag_regex_run env re_compile_any fields _ tag self regexp Hcompile)
    as (s2 & H2 & Hrows2).
  exists s1, s2. split; [exact H1|]. split; [exact H2|].
  rewrite Hrows1, Hrows2. apply map_ext. intros r.
  rewrite tag_fields_as_regex.
  rewrite (tag_regex_fields_ext env regexp (Re.search (literals values)) r fields Hagree).
  reflexivity.
Qed.

Lemma tag_string_is_tag_regex_witness :
  fragment_re (Text.join [cp_bar] (map Re.escape [T "a.b"; T "scam"]))
  = inr (Re.search (literals [T "a.b"; T "scam"])) /\
  (forall s, Re.search (literals [T "a.b"; T "scam"]) s
             = Re.search (literals [T "a.b"; T "scam"]) s) /\
  exists by_string by_regex,
    tag_string Fixture.env ["body"] [T "a.b"; T "scam"] "junk" Fixture.two_rows
    = (inr tt, by_string) /\
    tag_regex Fixture.env fragment_re ["body"]
      (Text.join [cp_bar] (map Re.escape [T "a.b"; T "scam"])) "junk"
      Fixture.two_rows
    = (inr tt, by_regex) /\
    rows (dataset by_string) = rows (dataset by_regex).
Proof.
  split; [reflexivity|]. split; [reflexivity|].
  exact (tag_string_is_tag_regex Fixture.env fragment_re ["body"]
           [T "a.b"; T "scam"] "junk" Fixture.two_rows
           (Re.search (literals [T "a.b"; T "scam"])) eq_refl
           (fun s => eq_refl)).
Defined.

(** ** What every operation keeps *)

Section Invariants.

Context {A B : Type}.

Lemma keeps_dataset_ret (a : A) : keeps_dataset (ret a).
Proof. intros self out self' [= _ <-]. reflexivity. Qed.

Lemma keeps_dataset_raise (e : exn) : keeps_dataset (@raise A e).
Proof. intros self out self' [= _ <-]. reflexivity. Qed.

Lemma keeps_dataset_lift (m : exn + A) : keeps_dataset (lift m).
Proof. intros self out self' [= _ <-]. reflexivity. Qed.

Lemma keeps_dataset_bind (m : M A) (k : A -> M B) :
  keeps_dataset m -> (forall a, keeps_dataset (k a)) -> keeps_dataset (bind m k).
Proof.
  intros Hm Hk self out self'. unfold bind.
  destruct (m self) as [[e|a] s1] eqn:H1.
  - intros [= _ <-]. exact (Hm _ _ _ H1).
  - intros H2. rewrite (Hk _ _ _ _ H2). exact (Hm _ _ _ H1).
Qed.

Lemma keeps_dataset_fails_cleanly (m : M A) : keeps_dataset m -> fails_cleanly m.
Proof. intros H self e self' Hrun. exact (H _ _ _ Hrun). Qed.

Lemma keeps_dataset_row_count (m : M A) : keeps_dataset m -> keeps_row_count m.
Proof. intros H self a self' Hrun. rewrite (H _ _ _ Hrun). reflexivity. Qed.

(** Reading first, then a step that fails cleanly. *)
Lemma fails_cleanly_after (m : M A) (k : A -> M B) :
  keeps_dataset m -> (forall a, fails_cleanly (k a)) -> fails_cleanly (bind m k).
Proof.
  intros Hm Hk self e self'. unfold bind.
  destruct (m self) as [[e'|a] s1] eqn:H1.
  - intros [= _ <-]. exact (Hm _ _ _ H1).
  - intros H2. rewrite (Hk _ _ _ _ H2). exact (Hm _ _ _ H1).
Qed.

(** A step that fails cleanly, then one that cannot fail. *)
Lemma fails_cleanly_before (m : M A) (k : A -> M B) :
  fails_cleanly m -> (forall a, never_raises (k a)) -> fails_cleanly (bind m k).
Proof.
  intros Hm Hk self e self'. unfold bind.
  destruct (m self) as [[e'|a] s1] eqn:H1.
  - intros [= _ <-]. exact (Hm _ _ _ H1).
  - intros H2. exfalso. exact (Hk _ _ _ _ H2).
Qed.

Lemma keeps_row_count_bind (m : M A) (k : A -> M B) :
  keeps_row_count m -> (forall a, keeps_row_count (k a)) ->
  keeps_row_count (bind m k).
Proof.
  intros Hm Hk self b self'. unfold bind.
  destruct (m self) as [[e|a] s1] eqn:H1; [discriminate|].
  intros H2. rewrite (Hk _ _ _ _ H2). exact (Hm _ _ _ H1).
Qed.

End Invariants.

Lemma keeps_dataset_get : keeps_dataset get_dataset.
Proof. intros self out self' [= _ <-]. reflexivity. Qed.

Lemma keeps_dataset_logger (r : log_record) : keeps_dataset (logger r).
Proof. intros self out self' [= _ <-]. reflexivity. Qed.

Lemma never_raises_logger (r : log_record) : never_raises (logger r).
Proof. intros self e self'. discriminate. Qed.

Lemma fails_cleanly_map_in_place
  (f : gmap string value -> exn + gmap string value) :
  fails_cleanly (map_in_place f).
Proof.
  intros self e self' H. rewrite (map_in_place_inl f self self' e H). reflexivity.
Qed.

Lemma keeps_row_count_map_in_place
  (f : gmap string value -> exn + gmap string value) :
  keeps_row_count (map_in_place f).
Proof.
  intros self [] self' H. apply map_in_place_inr in H as [H _].
  symmetry. apply (Forall2_length _ _ _ H).
Qed.

(** Steps that only read, log or raise. *)
Ltac keeps :=
  repeat first
    [ apply keeps_dataset_ret | apply keeps_dataset_raise
    | apply keeps_dataset_lift | apply keeps_dataset_get
    | apply keeps_dataset_logger
    | apply keeps_dataset_bind; [|intros ?]
    | match goal with
      | |- keeps_dataset (if ?c then _ else _) => destruct c
      | |- keeps_dataset (match ?x with _ => _ end) => destruct x
      end ].

(** The end of every operation: map in place, then log. *)
Ltac map_then_log :=
  first
    [ apply fails_cleanly_before;
        [apply fails_cleanly_map_in_place | intros ?; apply never_raises_logger]
    | apply keeps_row_count_bind;
        [apply keeps_row_count_map_in_place
        |intros ?; apply keeps_dataset_row_count, keeps_dataset_logger] ].

(** The steps before it. *)
Ltac prelude :=
  repeat first
    [ map_then_log
    | apply keeps_dataset_fails_cleanly; solve [keeps]
    | apply keeps_dataset_row_count; solve [keeps]
    | apply fails_cleanly_after; [solve [keeps] | intros ?]
    | apply keeps_row_count_bind;
        [apply keeps_dataset_row_count; solve [keeps] | intros ?]
    | match goal with
      | |- fails_cleanly (if ?c then _ else _) => destruct c
      | |- fails_cleanly (match ?x with _ => _ end) => destruct x
      | |- keeps_row_count (if ?c then _ else _) => destruct c
      | |- keeps_row_count (match ?x with _ => _ end) => destruct x
      end ].

(** X11: None of the seven operations leaves a changed dataset behind when
    it raises: the dataset is assigned only after the whole map has
    gone through. *)
Theorem operations_fail_cleanly (env : Capabilities)
  (re_compile_any : list N -> exn + (list N -> bool)) :
  (forall fields values tag, fails_cleanly (tag_string env fields values tag)) /\
  (forall fields regex tag,
     fails_cleanly (tag_regex env re_compile_any fields regex tag)) /\
  (forall field, fails_cleanly (detect_language env field)) /\
  (forall field model language dataset_name,
     fails_cleanly (calc_perplexity env field model language dataset_name)) /\
  (forall fields, fails_cleanly (detect_pii env fields)) /\
  (forall field, fails_cleanly (detect_seo_spam env field)) /\
  (forall fields tokenizer, fails_cleanly (count_tokens env fields tokenizer)).
Proof.
  repeat split; intros.
  - unfold tag_string. prelude.
  - unfold tag_regex. prelude.
  - unfold detect_language. prelude.
  - unfold calc_perplexity, calc_perplexity_body. prelude.
  - unfold detect_pii. prelude.
  - unfold detect_seo_spam. prelude.
  - unfold count_tokens. prelude.
Qed.

Lemma operations_fail_cleanly_witness :
  count_tokens Fixture.env ["body"; "missing"] None Fixture.two_rows
  = (inl (KeyError "missing"), Fixture.two_rows) /\
  dataset Fixture.two_rows = dataset Fixture.two_rows.
Proof.
  assert (Hrun : count_tokens Fixture.env ["body"; "missing"] None Fixture.two_rows
                 = (inl (KeyError "missing"), Fixture.two_rows)) by reflexivity.
  split; [exact Hrun|].
  destruct (operations_fail_cleanly Fixture.env fragment_re)
    as (_ & _ & _ & _ & _ & _ & H).
  exact (H ["body"; "missing"] None Fixture.two_rows (KeyError "missing")
           Fixture.two_rows Hrun).
Defined.

(** X12: Every operation that returns has kept the number of rows. *)
Theorem operations_keep_row_count (env : Capabilities)
  (re_compile_any : list N -> exn + (list N -> bool)) :
  (forall fields values tag, keeps_row_count (tag_string env fields values tag)) /\
  (forall fields regex tag,
     keeps_row_count (tag_regex env re_compile_any fields regex tag)) /\
  (forall field, keeps_row_count (detect_language env field)) /\
  (forall field model language dataset_name,
     keeps_row_count (calc_perplexity env field model language dataset_name)) /\
  (forall fields, keeps_row_count (detect_pii env fields)) /\
  (forall field, keeps_row_count (detect_seo_spam env field)) /\
  (forall fields tokenizer, keeps_row_count (count_tokens env fields tokenizer)).
Proof.
  repeat split; intros.
  - unfold tag_string. prelude.
  - unfold tag_regex. prelude.
  - unfold detect_language. prelude.
  - unfold calc_perplexity, calc_perplexity_body. prelude.
  - unfold detect_pii. prelude.
  - unfold detect_seo_spam. prelude.
  - unfold count_tokens. prelude.
Qed.

Lemma operations_keep_row_count_witness :
  let self' := snd (detect_pii Fixture.env ["body"] Fixture.two_rows) in
  detect_pii Fixture.env ["body"] Fixture.two_rows = (inr tt, self') /\
  length (rows (dataset self')) = length (rows (dataset Fixture.two_rows)).
Proof.
  intros self'.
  assert (Hrun : detect_pii Fixture.env ["body"] Fixture.two_rows
                 = (inr tt, self')) by reflexivity.
  split; [exact Hrun|].
  destruct (operations_keep_row_count Fixture.env fragment_re)
    as (_ & _ & _ & _ & H & _).
  exact (H ["body"] Fixture.two_rows tt self' Hrun).
Defined.

(** ** The perplexity scorer, continued *)

(** X13: The checks of [calc_perplexity] come in this order, each before any
    model is loaded: the field must be a column, then a string column,
    then the model name one of the two that are supported. *)
Theorem calc_perplexity_validation (env : Capabilities) (field : string)
  (model : option string) (language dataset_name : option (option string))
  (self : Galactic) :
  (features (dataset self) !! field = None ->
   calc_perplexity env field model language dataset_name self
   = (inl (field_not_found field), self)) /\
  (forall dtype,
     features (dataset self) !! field = Some dtype -> dtype <> "string" ->
     calc_perplexity env field model language dataset_name self
     = (inl (not_a_string_field field "calculate perplexity."), self)) /\
  (features (dataset self) !! field = Some "string" ->
   default "kenlm" model <> "pythia" -> default "kenlm" model <> "kenlm" ->
   calc_perplexity env field model language dataset_name self
   = (inl (model_not_supported (default "kenlm" model)), self)).
Proof.
  unfold calc_perplexity, calc_perplexity_body, bind, get_dataset.
  split; [|split].
  - intros ->. reflexivity.
  - intros dtype -> Hne.
    destruct (String.eqb_spec dtype "string") as [->|_]; [congruence|].
    reflexivity.
  - intros -> Hp Hk. cbn [String.eqb Ascii.eqb Bool.eqb negb].
    destruct (String.eqb_spec (default "kenlm" model) "pythia") as [H|_];
      [congruence|].
    destruct (String.eqb_spec (default "kenlm" model) "kenlm") as [H|_];
      [congruence|].
    reflexivity.
Qed.

Lemma calc_perplexity_validation_witness :
  features (dataset Fixture.two_rows) !! "body" = Some "string" /\
  default "kenlm" (Some "gpt2") <> "pythia" /\
  default "kenlm" (Some "gpt2") <> "kenlm" /\
  calc_perplexity Fixture.env "body" (Some "gpt2") None None Fixture.two_rows
  = (inl (model_not_supported "gpt2"), Fixture.two_rows).
Proof.
  assert (H1 : features (dataset Fixture.two_rows) !! "body" = Some "string")
    by reflexivity.
  assert (H2 : default "kenlm" (Some "gpt2") <> "pythia") by discriminate.
  assert (H3 : default "kenlm" (Some "gpt2") <> "kenlm") by discriminate.
  split; [exact H1|]. split; [exact H2|]. split; [exact H3|].
  exact (proj2 (proj2 (calc_perplexity_validation Fixture.env "body"
                         (Some "gpt2") None None Fixture.two_rows)) H1 H2 H3).
Defined.

(** X14: The pythia backend does not look at the language or the dataset
    argument: whatever is passed for them, [None] included, the call
    does the same. *)
Theorem calc_perplexity_pythia_ignores_language (env : Capabilities)
  (field : string) (language dataset_name language' dataset_name'
     : option (option string)) (self : Galactic) :
  calc_perplexity env field (Some "pythia") language dataset_name self
  = calc_perplexity env field (Some "pythia") language' dataset_name' self.
Proof.
  unfold calc_perplexity.
  change (default "kenlm" (Some "pythia")) with "pythia".
  unfold calc_perplexity_body, bind, get_dataset.
  destruct (features (dataset self) !! field) as [dtype|]; [|reflexivity].
  destruct (negb (String.eqb dtype "string")); reflexivity.
Qed.

Lemma calc_kenlm_row (model : KenlmModel) (field : string)
  (sample u : gmap string value) :
  calc_kenlm model field sample = inr u ->
  exists s ppl,
    sample !! field = Some (VStr s) /\
    get_perplexity model s = inr ppl /\
    u = {[ "__perplexity" := VFloat ppl ]}.
Proof.
  unfold calc_kenlm. intros H.
  apply bindE_inr in H as (v & Hv & H). apply getitem_inr in Hv.
  apply bindE_inr in H as (s & Hs & H). apply as_text_inr in Hs as ->.
  apply bindE_inr in H as (ppl & Hp & H).
  injection H as <-. exists s, ppl. auto.
Qed.

(** X15: When the kenlm backend has scored a dataset, both the language and
    the dataset name had a value, the model is the one loaded for
    (dataset, language) in that order, and every row holds in
    [__perplexity] what that model returns for the text of the field,
    unchanged. *)
Theorem calc_perplexity_kenlm_rows (env : Capabilities) (field : string)
  (model : option string) (language dataset_name : option (option string))
  (self self' : Galactic)
  (Hmodel : default "kenlm" model = "kenlm")
  (Hrun : calc_perplexity env field model language dataset_name self
          = (inr tt, self')) :
  exists lang name kenlm,
    default (Some "en") language = Some lang /\
    default (Some "wikipedia") dataset_name = Some name /\
    KenlmModel_from_pretrained env name lang = inr kenlm /\
    Forall2 (fun r r' =>
               exists s ppl,
                 r !! field = Some (VStr s) /\
                 get_perplexity kenlm s = inr ppl /\
                 r' = <[ "__perplexity" := VFloat ppl ]> r)
            (rows (dataset self)) (rows (dataset self')).
Proof.
  revert Hrun. unfold calc_perplexity. rewrite Hmodel.
  generalize (default (Some "en") language).
  generalize (default (Some "wikipedia") dataset_name).
  intros d l.
  unfold calc_perplexity_body, bind, get_dataset.
  destruct (features (dataset self) !! field) as [dtype|]; [|discriminate].
  destruct (negb (String.eqb dtype "string")); [discriminate|].
  change (String.eqb "kenlm" "pythia") with false.
  change (String.eqb "kenlm" "kenlm") with true. cbv iota.
  destruct l as [lang|]; [|discriminate].
  destruct d as [name|]; [|discriminate].
  unfold bind, lift at 1.
  destruct (KenlmModel_from_pretrained env name lang) as [e|kenlm] eqn:Hload;
    [discriminate|].
  unfold ret.
  destruct (map_in_place (calc_kenlm kenlm field) self)
    as [[e|[]] s1] eqn:Hmap; [discriminate|].
  intros [= <-]. exists lang, name, kenlm.
  do 2 (split; [reflexivity|]). split; [exact Hload|]. simpl.
  apply map_in_place_inr in Hmap as [Hrows _].
  eapply Forall2_impl; [exact Hrows|].
  intros r r' (u & Hu & ->).
  apply calc_kenlm_row in Hu as (s & ppl & H1 & H2 & ->).
  exists s, ppl. repeat (split; [assumption|]). apply merge_singleton.
Qed.

Lemma calc_perplexity_kenlm_rows_witness :
  let self' := snd (calc_perplexity Fixture.env "body" None None None
                      Fixture.two_rows) in
  default "kenlm" (@None string) = "kenlm" /\
  calc_perplexity Fixture.env "body" None None None Fixture.two_rows
  = (inr tt, self') /\
  exists lang name kenlm,
    default (Some "en") (@None (option string)) = Some lang /\
    default (Some "wikipedia") (@None (option string)) = Some name /\
    KenlmModel_from_pretrained Fixture.env name lang = inr kenlm /\
    Forall2 (fun r r' =>
               exists s ppl,
                 r !! "body" = Some (VStr s) /\
                 get_perplexity kenlm s = inr ppl /\
                 r' = <[ "__perplexity" := VFloat ppl ]> r)
            (rows (dataset Fixture.two_rows)) (rows (dataset self')).
Proof.
  intros self'.
  assert (Hrun : calc_perplexity Fixture.env "body" None None None
                   Fixture.two_rows = (inr tt, self')) by reflexivity.
  split; [reflexivity|]. split; [exact Hrun|].
  exact (calc_perplexity_kenlm_rows Fixture.env "body" None None None
           Fixture.two_rows self' eq_refl Hrun).
Defined.

(** *** One scoring after another *)

Lemma map_in_place_unfold (f : gmap string value -> exn + gmap string value)
  (self : Galactic) :
  map_in_place f self
  = match Dataset_map f (dataset self) with
    | inl e => (inl e, self)
    | inr ds' => (inr tt, {| dataset := ds'; log := log self |})
    end.
Proof.
  unfold map_in_place, bind, get_dataset, lift, set_dataset.
  destruct (Dataset_map f (dataset self)); reflexivity.
Qed.

Lemma map_outputs_after (f g : gmap string value -> exn + gmap string value)
  (l l1 : list (gmap string value)) (us : list (gmap string value)) :
  (forall r u, g r = inr u -> f (merge_row u r) = f r) ->
  Forall2 (row_mapped g) l l1 ->
  map_outputs f l = inr us -> map_outputs f l1 = inr us.
Proof.
  intros Hread Hl. revert us.
  induction Hl as [|r r1 l l1 (u & Hu & ->) _ IH]; intros us; [auto|].
  simpl. rewrite (Hread r u Hu).
  destruct (f r) as [e|u2]; simpl; [discriminate|].
  destruct (map_outputs f l) as [e|us2]; simpl; [discriminate|].
  intros [= <-]. rewrite (IH us2 eq_refl). reflexivity.
Qed.

Lemma zip_merge_after (f g : gmap string value -> exn + gmap string value)
  (l l1 : list (gmap string value)) (us : list (gmap string value)) :
  (forall r u u', g r = inr u -> f r = inr u' ->
                  merge_row u' (merge_row u r) = merge_row u' r) ->
  Forall2 (row_mapped g) l l1 ->
  Forall2 (fun r u' => f r = inr u') l us ->
  zip_with merge_row us l1 = zip_with merge_row us l.
Proof.
  intros Hover Hl. revert us.
  induction Hl as [|r r1 l l1 (u & Hu & ->) _ IH]; intros us Hus.
  - inversion Hus; reflexivity.
  - inversion Hus as [|? u' ? us' Hu' Hus']; subst. simpl.
    rewrite (Hover r u u' Hu Hu'), (IH us' Hus'). reflexivity.
Qed.

(** Mapping [f] over the result of mapping [g] gives the rows of
    mapping [f] alone, when [f] does not read what [g] writes and
    writes over it. *)
Lemma Dataset_map_after (f g : gmap string value -> exn + gmap string value)
  (ds ds1 ds2 : Dataset) :
  Dataset_map g ds = inr ds1 -> Dataset_map f ds = inr ds2 ->
  (forall r u, g r = inr u -> f (merge_row u r) = f r) ->
  (forall r u u', g r = inr u -> f r = inr u' ->
                  merge_row u' (merge_row u r) = merge_row u' r) ->
  exists ds12, Dataset_map f ds1 = inr ds12 /\ rows ds12 = rows ds2.
Proof.
  intros Hg Hf Hread Hover.
  pose proof (Dataset_map_rows g ds ds1 Hg) as Hrows.
  revert Hf. unfold Dataset_map.
  destruct (rows ds) as [|r rs] eqn:Hds.
  - intros [= <-]. apply Forall2_nil_inv_l in Hrows.
    exists ds1. rewrite Hrows, Hds. auto.
  - destruct (map_outputs f (r :: rs)) as [e|us] eqn:Hus; simpl; [discriminate|].
    intros [= <-]. simpl.
    destruct (rows ds1) as [|r1 rs1] eqn:Hds1; [inversion Hrows|].
    rewrite (map_outputs_after f g _ _ us Hread Hrows Hus). simpl.
    eexists. split; [reflexivity|]. simpl.
    apply (zip_merge_after f g _ _ us Hover Hrows).
    apply map_outputs_inr, Hus.
Qed.

Lemma Dataset_map_features_other
  (f : gmap string value -> exn + gmap string value) (ds ds' : Dataset)
  (k : string) :
  Dataset_map f ds = inr ds' ->
  (forall r u, f r = inr u -> u !! k = None) ->
  features ds' !! k = features ds !! k.
Proof.
  unfold Dataset_map. intros H Hk.
  destruct (rows ds) as [|r rs]; [injection H as <-; reflexivity|].
  destruct (map_outputs f (r :: rs)) as [e|us] eqn:Hus; simpl in H; [discriminate|].
  injection H as <-. simpl.
  apply map_outputs_inr in Hus. inversion Hus as [|? u ? us' Hu _]; subst.
  apply lookup_union_r. rewrite lookup_fmap, (Hk r u Hu). reflexivity.
Qed.

(** The row function that [calc_perplexity] selects, or the error of
    the selection; it does not depend on the dataset. *)
Lemma calc_perplexity_unfold (env : Capabilities) (field : string)
  (model : option string) (language dataset_name : option (option string)) :
  exists selected : exn + (gmap string value -> exn + gmap string value),
    (forall calc_, selected = inr calc_ ->
       (forall r k x, k <> field -> calc_ (<[ k := x ]> r) = calc_ r) /\
       (forall r u, calc_ r = inr u -> exists x, u = {[ "__perplexity" := x ]})) /\
    forall self,
      calc_perplexity env field model language dataset_name self
      = match features (dataset self) !! field with
        | None => (inl (field_not_found field), self)
        | Some dtype =>
            if negb (String.eqb dtype "string")
            then (inl (not_a_string_field field "calculate perplexity."), self)
            else
              match selected with
              | inl e => (inl e, self)
              | inr calc_ =>
                  match Dataset_map calc_ (dataset self) with
                  | inl e => (inl e, self)
                  | inr ds' =>
                      (inr tt,
                       {| dataset := ds';
                          log := log self ++ [LogInfo "calc_perplexity" [field]] |})
                  end
              end
        end.
Proof.
  assert (Hpythia : forall g t calc_,
            calc_ = calc_pythia g t field ->
            (forall r k x, k <> field -> calc_ (<[ k := x ]> r) = calc_ r) /\
            (forall r u, calc_ r = inr u ->
                         exists x, u = {[ "__perplexity" := x ]})).
  { intros g t calc_ ->. split.
    - intros r k x Hk. unfold calc_pythia, getitem.
      rewrite lookup_insert_ne by exact Hk. reflexivity.
    - intros r u Hu. apply calc_pythia_row in Hu as (s & i & lp & _ & _ & _ & ->).
      eauto. }
  assert (Hkenlm : forall m calc_,
            calc_ = calc_kenlm m field ->
            (forall r k x, k <> field -> calc_ (<[ k := x ]> r) = calc_ r) /\
            (forall r u, calc_ r = inr u ->
                         exists x, u = {[ "__perplexity" := x ]})).
  { intros m calc_ ->. split.
    - intros r k x Hk. unfold calc_kenlm, getitem.
      rewrite lookup_insert_ne by exact Hk. reflexivity.
    - intros r u Hu. apply calc_kenlm_row in Hu as (s & ppl & _ & _ & ->).
      eauto. }
  unfold calc_perplexity, calc_perplexity_body.
  generalize (default "kenlm" model). intros name.
  generalize (default (Some "en") language). intros l.
  generalize (default (Some "wikipedia") dataset_name). intros d.
  assert (Hshape : forall (selected : exn + (gmap string value -> exn + gmap string value))
                          (select : M (gmap string value -> exn + gmap string value)),
            (forall self, select self = (selected, self)) ->
            forall self,
              (letM ds := get_dataset in
               match features ds !! field with
               | None => raise (field_not_found field)
               | Some dtype =>
                   if negb (String.eqb dtype "string")
                   then raise (not_a_string_field field "calculate perplexity.")
                   else
                     letM calc_ := select in
                     run map_in_place calc_ then
                     logger (LogInfo "calc_perplexity" [field])
               end) self
              = match features (dataset self) !! field with
                | None => (inl (field_not_found field), self)
                | Some dtype =>
                    if negb (String.eqb dtype "string")
                    then (inl (not_a_string_field field "calculate perplexity."),
                          self)
                    else
                      match selected with
                      | inl e => (inl e, self)
                      | inr calc_ =>
                          match Dataset_map calc_ (dataset self) with
                          | inl e => (inl e, self)
                          | inr ds' =>
                              (inr tt,
                               {| dataset := ds';
                                  log := log self
                                         ++ [LogInfo "calc_perplexity" [field]] |})
                          end
                      end
                end).
  { intros selected select Hsel self. unfold bind, get_dataset.
    destruct (features (dataset self) !! field) as [dtype|]; [|reflexivity].
    destruct (negb (String.eqb dtype "string")); [reflexivity|].
    rewrite Hsel. destruct selected as [e|calc_]; [reflexivity|].
    rewrite map_in_place_unfold.
    destruct (Dataset_map calc_ (dataset self)); reflexivity. }
  destruct (String.eqb name "pythia").
  - destruct (load_generator env) as [e|g] eqn:Hg.
    + exists (inl e). split; [discriminate|]. apply (Hshape (inl e)).
      intros self. unfold bind, lift. reflexivity.
    + destruct (AutoTokenizer_from_pretrained env "EleutherAI/pythia-70m")
        as [e|t] eqn:Ht.
      * exists (inl e). split; [discriminate|]. apply (Hshape (inl e)).
        intros self. unfold bind, lift. reflexivity.
      * exists (inr (calc_pythia g t field)).
        split; [intros c [= <-]; apply (Hpythia g t); reflexivity|].
        apply (Hshape (inr (calc_pythia g t field))).
        intros self. unfold bind, lift. reflexivity.
  - destruct (String.eqb name "kenlm").
    + destruct l as [lang|]; [destruct d as [dname|]|].
      * destruct (KenlmModel_from_pretrained env dname lang) as [e|m] eqn:Hm.
        -- exists (inl e). split; [discriminate|]. apply (Hshape (inl e)).
           intros self. unfold bind, lift. reflexivity.
        -- exists (inr (calc_kenlm m field)).
           split; [intros c [= <-]; apply (Hkenlm m); reflexivity|].
           apply (Hshape (inr (calc_kenlm m field))).
           intros self. unfold bind, lift. reflexivity.
      * exists (inl kenlm_needs_both). split; [discriminate|].
        apply (Hshape (inl kenlm_needs_both)). reflexivity.
      * exists (inl kenlm_needs_both). split; [discriminate|].
        apply (Hshape (inl kenlm_needs_both)). reflexivity.
    + exists (inl (model_not_supported name)). split; [discriminate|].
      apply (Hshape (inl (model_not_supported name))). reflexivity.
Qed.

(** X16: Scoring a dataset that has been scored before, by either backend,
    gives in the rows exactly what scoring the first dataset gives: the
    column [__perplexity] is written over, and no warning is logged. *)
Theorem calc_perplexity_overwrites (env : Capabilities) (field : string)
  (model1 model2 : option string)
  (language1 dataset1 language2 dataset2 : option (option string))
  (self first second : Galactic)
  (Hfield : field <> "__perplexity")
  (Hfirst : calc_perplexity env field model1 language1 dataset1 self
            = (inr tt, first))
  (Hsecond : calc_perplexity env field model2 language2 dataset2 self
             = (inr tt, second)) :
  exists both,
    calc_perplexity env field model2 language2 dataset2 first = (inr tt, both) /\
    rows (dataset both) = rows (dataset second) /\
    log both = log first ++ [LogInfo "calc_perplexity" [field]].
Proof.
  destruct (calc_perplexity_unfold env field model1 language1 dataset1)
    as (sel1 & Hsel1 & Hrun1).
  destruct (calc_perplexity_unfold env field model2 language2 dataset2)
    as (sel2 & Hsel2 & Hrun2).
  rewrite Hrun1 in Hfirst. rewrite Hrun2 in Hsecond. rewrite Hrun2.
  destruct (features (dataset self) !! field) as [dtype|] eqn:Hdtype;
    [|discriminate].
  destruct (negb (String.eqb dtype "string")) eqn:Hstring; [discriminate|].
  destruct sel1 as [e|calc1]; [discriminate|].
  destruct sel2 as [e|calc2]; [discriminate|].
  destruct (Hsel1 calc1 eq_refl) as [_ Hwrite1].
  destruct (Hsel2 calc2 eq_refl) as [Hread2 Hwrite2].
  destruct (Dataset_map calc1 (dataset self)) as [e|ds1] eqn:Hmap1; [discriminate|].
  destruct (Dataset_map calc2 (dataset self)) as [e|ds2] eqn:Hmap2; [discriminate|].
  injection Hfirst as <-. injection Hsecond as <-. cbn [dataset log].
  assert (Hcol : features ds1 !! field = Some dtype).
  { rewrite <- Hdtype. apply (Dataset_map_features_other calc1 _ _ _ Hmap1).
    intros r u Hu. destruct (Hwrite1 r u Hu) as [x ->].
    apply lookup_singleton_ne. congruence. }
  rewrite Hcol, Hstring.
  destruct (Dataset_map_after calc2 calc1 _ ds1 ds2 Hmap1 Hmap2)
    as (ds12 & -> & Hrows).
  - intros r u Hu. destruct (Hwrite1 r u Hu) as [x ->].
    rewrite merge_singleton. apply Hread2. congruence.
  - intros r u u' Hu Hu'. destruct (Hwrite1 r u Hu) as [x ->].
    destruct (Hwrite2 r u' Hu') as [y ->].
    rewrite !merge_singleton. apply insert_insert_eq.
  - eexists. split; [reflexivity|]. simpl. auto.
Qed.

Lemma calc_perplexity_overwrites_witness :
  let first := snd (calc_perplexity Fixture.env "body" None None None
                      Fixture.two_rows) in
  let second := snd (calc_perplexity Fixture.env "body" (Some "pythia") None None
                       Fixture.two_rows) in
  "body" <> "__perplexity" /\
  calc_perplexity Fixture.env "body" None None None Fixture.two_rows
  = (inr tt, first) /\
  calc_perplexity Fixture.env "body" (Some "pythia") None None Fixture.two_rows
  = (inr tt, second) /\
  exists both,
    calc_perplexity Fixture.env "body" (Some "pythia") None None first
    = (inr tt, both) /\
    rows (dataset both) = rows (dataset second) /\
    log both = log first ++ [LogInfo "calc_perplexity" ["body"]].
Proof.
  intros first second.
  assert (H0 : "body" <> "__perplexity") by discriminate.
  assert (H1 : calc_perplexity Fixture.env "body" None None None Fixture.two_rows
               = (inr tt, first)) by reflexivity.
  assert (H2 : calc_perplexity Fixture.env "body" (Some "pythia") None None
                 Fixture.two_rows = (inr tt, second)) by reflexivity.
  split; [exact H0|]. split; [exact H1|]. split; [exact H2|].
  exact (calc_perplexity_overwrites Fixture.env "body" None (Some "pythia")
           None None None None Fixture.two_rows first second H0 H1 H2).
Defined.

(** ** The spam classifier, continued *)

Lemma spam_names_apart (a b : string) :
  ("__seo_spam__" ++ a)%string <> ("__seo_spam_prob__" ++ b)%string.
Proof. simpl. intros H. discriminate H. Qed.

Lemma prefixed_apart (prefix a b : string) :
  a <> b -> (prefix ++ a)%string <> (prefix ++ b)%string.
Proof. intros Hne H. apply Hne. exact (append_inj_l prefix a b H). Qed.

(** X17: The checks of [detect_seo_spam] come before the classifier is
    loaded: a field that is no column, then a column that is not of
    strings, raise whatever the model resolver would do. *)
Theorem detect_seo_spam_validation (env : Capabilities) (field : string)
  (self : Galactic) :
  (features (dataset self) !! field = None ->
   detect_seo_spam env field self = (inl (field_not_found field), self)) /\
  (forall dtype,
     features (dataset self) !! field = Some dtype -> dtype <> "string" ->
     detect_seo_spam env field self
     = (inl (not_a_string_field field "detect SEO spam."), self)).
Proof.
  unfold detect_seo_spam, bind, get_dataset. split.
  - intros ->. reflexivity.
  - intros dtype -> Hne.
    destruct (String.eqb_spec dtype "string") as [->|_]; [congruence|].
    reflexivity.
Qed.

Lemma detect_seo_spam_validation_witness :
  features (dataset Fixture.array_rows) !! "arr" = Some "object" /\
  "object" <> "string" /\
  detect_seo_spam Fixture.env "arr" Fixture.array_rows
  = (inl (not_a_string_field "arr" "detect SEO spam."), Fixture.array_rows).
Proof.
  assert (H1 : features (dataset Fixture.array_rows) !! "arr" = Some "object")
    by reflexivity.
  assert (H2 : "object" <> "string") by discriminate.
  split; [exact H1|]. split; [exact H2|].
  exact (proj2 (detect_seo_spam_validation Fixture.env "arr" Fixture.array_rows)
           "object" H1 H2).
Defined.

Lemma detect_seo_spam_inr (env : Capabilities) (field : string)
  (self self' : Galactic) :
  detect_seo_spam env field self = (inr tt, self') ->
  exists model,
    load_fasttext env "seo_spam.ftz" = inr model /\
    Forall2 (row_mapped (detect_seo_spam_ env model field))
      (rows (dataset self)) (rows (dataset self')).
Proof.
  unfold detect_seo_spam, bind, get_dataset.
  destruct (features (dataset self) !! field) as [dtype|]; [|discriminate].
  destruct (negb (String.eqb dtype "string")); [discriminate|].
  unfold lift at 1.
  destruct (load_fasttext env "seo_spam.ftz") as [e|model]; [discriminate|].
  destruct (map_in_place (detect_seo_spam_ env model field) self)
    as [[e|[]] s1] eqn:Hmap; [discriminate|].
  intros [= <-]. exists model. split; [reflexivity|]. simpl.
  apply map_in_place_inr in Hmap as [Hrows _]. exact Hrows.
Qed.

(** X18: If the classifier returns probabilities between 0 and 1, so is
    every probability that [detect_seo_spam] writes, and every row of
    the result holds both columns of the field. *)
Theorem detect_seo_spam_probability_range (env : Capabilities)
  (field : string) (self self' : Galactic)
  (Hrun : detect_seo_spam env field self = (inr tt, self'))
  (Hmodel : forall model s result p,
      load_fasttext env "seo_spam.ftz" = inr model ->
      predict model s = inr result ->
      index (probabilities result) 0 = inr p -> (0 <= p <= 1)%R) :
  Forall (fun r' : gmap string value =>
            exists spam prob,
              r' !! ("__seo_spam__" ++ field)%string = Some (VBool spam) /\
              r' !! ("__seo_spam_prob__" ++ field)%string = Some (VFloat prob) /\
              (0 <= prob <= 1)%R)
    (rows (dataset self')).
Proof.
  apply detect_seo_spam_inr in Hrun as (model & Hload & Hrows).
  induction Hrows as [|r r' l l' (u & Hu & ->) _ IH]; constructor; [|exact IH].
  apply detect_seo_spam_row in Hu
    as (s & result & label & p & _ & Hpred & _ & Hp & ->).
  rewrite merge_spam_columns. unfold spam_columns.
  pose proof (Hmodel model _ result p Hload Hpred Hp) as Hrange.
  eexists _, _. split; [apply lookup_insert_eq|]. split.
  - rewrite lookup_insert_ne by apply spam_names_apart. apply lookup_insert_eq.
  - destruct (bool_decide (label = T "discard")); lra.
Qed.

Lemma detect_seo_spam_probability_range_witness :
  let self' := snd (detect_seo_spam Fixture.env "body" Fixture.two_rows) in
  detect_seo_spam Fixture.env "body" Fixture.two_rows = (inr tt, self') /\
  (forall model s result p,
      load_fasttext Fixture.env "seo_spam.ftz" = inr model ->
      predict model s = inr result ->
      index (probabilities result) 0 = inr p -> (0 <= p <= 1)%R) /\
  Forall (fun r' : gmap string value =>
            exists spam prob,
              r' !! "__seo_spam__body" = Some (VBool spam) /\
              r' !! "__seo_spam_prob__body" = Some (VFloat prob) /\
              (0 <= prob <= 1)%R)
    (rows (dataset self')).
Proof.
  intros self'.
  assert (Hrun : detect_seo_spam Fixture.env "body" Fixture.two_rows
                 = (inr tt, self')) by reflexivity.
  assert (Hmodel : forall model s result p,
             load_fasttext Fixture.env "seo_spam.ftz" = inr model ->
             predict model s = inr result ->
             index (probabilities result) 0 = inr p -> (0 <= p <= 1)%R).
  { intros model s result p Hload. injection Hload as <-.
    unfold Fixture.seo_spam, predict.
    destruct (Text.contains (T "buy now") s); intros [= <-]; intros [= <-]; lra. }
  split; [exact Hrun|]. split; [exact Hmodel|].
  exact (detect_seo_spam_probability_range Fixture.env "body" Fixture.two_rows
           self' Hrun Hmodel).
Defined.

(** X19: Scoring one field leaves every column but the two of that field as
    it was; the columns of another field are among those, so that
    several fields can be scored one after the other. *)
Theorem detect_seo_spam_other_field (env : Capabilities) (field other : string)
  (self self' : Galactic)
  (Hother : other <> field)
  (Hrun : detect_seo_spam env field self = (inr tt, self')) :
  Forall2 (fun r r' =>
             (forall k, k <> ("__seo_spam__" ++ field)%string ->
                        k <> ("__seo_spam_prob__" ++ field)%string ->
                        r' !! k = r !! k) /\
             r' !! ("__seo_spam__" ++ other)%string
             = r !! ("__seo_spam__" ++ other)%string /\
             r' !! ("__seo_spam_prob__" ++ other)%string
             = r !! ("__seo_spam_prob__" ++ other)%string)
    (rows (dataset self)) (rows (dataset self')).
Proof.
  apply detect_seo_spam_inr in Hrun as (model & _ & Hrows).
  eapply Forall2_impl; [exact Hrows|].
  intros r r' (u & Hu & ->).
  apply detect_seo_spam_row in Hu as (s & result & label & p & _ & _ & _ & _ & ->).
  rewrite merge_spam_columns. unfold spam_columns.
  assert (Hkeep : forall k, k <> ("__seo_spam__" ++ field)%string ->
                            k <> ("__seo_spam_prob__" ++ field)%string ->
            (<[ ("__seo_spam__" ++ field)%string := VBool (bool_decide (label = T "discard")) ]>
              (<[ ("__seo_spam_prob__" ++ field)%string :=
                    VFloat (if bool_decide (label = T "discard") then p else (1 - p)%R) ]> r))
            !! k = r !! k).
  { intros k H1 H2. rewrite !lookup_insert_ne by congruence. reflexivity. }
  split; [exact Hkeep|]. split; apply Hkeep.
  - apply prefixed_apart, Hother.
  - apply spam_names_apart.
  - intros H. symmetry in H. exact (spam_names_apart field other H).
  - apply prefixed_apart, Hother.
Qed.

Lemma detect_seo_spam_other_field_witness :
  let self' := snd (detect_seo_spam Fixture.env "body" Fixture.two_rows) in
  "title" <> "body" /\
  detect_seo_spam Fixture.env "body" Fixture.two_rows = (inr tt, self') /\
  Forall2 (fun r r' : gmap string value =>
             (forall k, k <> "__seo_spam__body" -> k <> "__seo_spam_prob__body" ->
                        r' !! k = r !! k) /\
             r' !! "__seo_spam__title" = r !! "__seo_spam__title" /\
             r' !! "__seo_spam_prob__title" = r !! "__seo_spam_prob__title")
    (rows (dataset Fixture.two_rows)) (rows (dataset self')).
Proof.
  intros self'.
  assert (H0 : "title" <> "body") by discriminate.
  assert (Hrun : detect_seo_spam Fixture.env "body" Fixture.two_rows
                 = (inr tt, self')) by reflexivity.
  split; [exact H0|]. split; [exact Hrun|].
  exact (detect_seo_spam_other_field Fixture.env "body" "title"
           Fixture.two_rows self' H0 Hrun).
Defined.

(** ** The counter, continued *)

Lemma count_tokens_inr (env : Capabilities) (fields : list string)
  (tokenizer : option string) (self self' : Galactic) :
  count_tokens env fields tokenizer self = (inr tt, self') ->
  exists count_fn field_name,
    (tokenizer = None /\ count_fn = count_bytes env /\
     field_name = "__byte_count__"
     \/ exists name tok,
          tokenizer = Some name /\
          AutoTokenizer_from_pretrained env name = inr tok /\
          count_fn = count_ids env tok /\ field_name = "__token_count__") /\
    Forall2 (row_mapped (fun x => count_columns count_fn field_name x fields ∅))
      (rows (dataset self)) (rows (dataset self')).
Proof.
  unfold count_tokens, bind. destruct tokenizer as [name|].
  - unfold lift at 1.
    destruct (AutoTokenizer_from_pretrained env name) as [e|tok] eqn:Hload;
      [discriminate|].
    unfold ret. cbn [fst snd].
    destruct (map_in_place _ self) as [[e|[]] s1] eqn:Hmap; [discriminate|].
    intros [= <-]. exists (count_ids env tok), "__token_count__". split.
    + right. exists name, tok. auto.
    + simpl. apply map_in_place_inr in Hmap as [Hrows _]. exact Hrows.
  - unfold ret. cbn [fst snd].
    destruct (map_in_place _ self) as [[e|[]] s1] eqn:Hmap; [discriminate|].
    intros [= <-]. exists (count_bytes env), "__byte_count__". split.
    + left. auto.
    + simpl. apply map_in_place_inr in Hmap as [Hrows _]. exact Hrows.
Qed.

(** X20: With a tokenizer, a successful count has loaded the tokenizer of
    that name and written, for every row and every listed field, the
    number of token ids of the stringified value to
    [__token_count__<field>]. *)
Theorem count_tokens_token_count (env : Capabilities) (fields : list string)
  (name : string) (self self' : Galactic)
  (Hrun : count_tokens env fields (Some name) self = (inr tt, self')) :
  exists tok,
    AutoTokenizer_from_pretrained env name = inr tok /\
    Forall2 (fun r r' =>
               forall field, field ∈ fields ->
                 exists v ids,
                   r !! field = Some v /\
                   input_ids tok (py_str env v) = inr ids /\
                   r' !! ("__token_count__" ++ field)%string
                   = Some (VInt (Z.of_nat (length ids))))
            (rows (dataset self)) (rows (dataset self')).
Proof.
  apply count_tokens_inr in Hrun as (count_fn & field_name & Hkind & Hrows).
  destruct Hkind as [(Hnone & _) | (n & tok & [= <-] & Hload & -> & ->)];
    [discriminate|].
  exists tok. split; [exact Hload|].
  eapply Forall2_impl; [exact Hrows|].
  intros r r' (u & Hu & ->) field Hfield.
  apply count_columns_inr in Hu as [Hin _].
  destruct (Hin field Hfield) as (v & n & Hv & Hn & Hlook).
  unfold count_ids in Hn. apply bindE_inr in Hn as (ids & Hids & [= <-]).
  exists v, ids. split; [exact Hv|]. split; [exact Hids|].
  unfold merge_row. apply lookup_union_Some_l. exact Hlook.
Qed.

Lemma count_tokens_token_count_witness :
  let self' := snd (count_tokens Fixture.env ["body"] (Some "gpt2")
                      Fixture.two_rows) in
  count_tokens Fixture.env ["body"] (Some "gpt2") Fixture.two_rows
  = (inr tt, self') /\
  exists tok,
    AutoTokenizer_from_pretrained Fixture.env "gpt2" = inr tok /\
    Forall2 (fun r r' : gmap string value =>
               forall field, field ∈ ["body"] ->
                 exists v ids,
                   r !! field = Some v /\
                   input_ids tok (py_str Fixture.env v) = inr ids /\
                   r' !! ("__token_count__" ++ field)%string
                   = Some (VInt (Z.of_nat (length ids))))
            (rows (dataset Fixture.two_rows)) (rows (dataset self')).
Proof.
  intros self'.
  assert (Hrun : count_tokens Fixture.env ["body"] (Some "gpt2") Fixture.two_rows
                 = (inr tt, self')) by reflexivity.
  split; [exact Hrun|].
  exact (count_tokens_token_count Fixture.env ["body"] "gpt2"
           Fixture.two_rows self' Hrun).
Defined.

(** X21: A successful count leaves every column that is not a count column
    of a listed field as it was; with no field listed the rows do not
    change at all. *)
Theorem count_tokens_other_columns (env : Capabilities) (fields : list string)
  (tokenizer : option string) (self self' : Galactic)
  (Hrun : count_tokens env fields tokenizer self = (inr tt, self')) :
  Forall2 (fun r r' =>
             forall k,
               (forall field, field ∈ fields ->
                  k <> ("__byte_count__" ++ field)%string /\
                  k <> ("__token_count__" ++ field)%string) ->
               r' !! k = r !! k)
    (rows (dataset self)) (rows (dataset self')) /\
  (fields = [] -> rows (dataset self') = rows (dataset self)).
Proof.
  apply count_tokens_inr in Hrun as (count_fn & field_name & Hkind & Hrows).
  assert (Hname : field_name = "__byte_count__" \/ field_name = "__token_count__").
  { destruct Hkind as [(_ & _ & ->) | (n & tok & _ & _ & _ & ->)]; auto. }
  split.
  - eapply Forall2_impl; [exact Hrows|].
    intros r r' (u & Hu & ->) k Hk.
    apply count_columns_inr in Hu as [_ Hout].
    apply merge_row_other. rewrite Hout; [apply lookup_empty|].
    intros f Hf. destruct (Hk f Hf) as [Hb Ht].
    destruct Hname as [-> | ->]; assumption.
  - intros ->. clear Hkind Hname. symmetry.
    induction Hrows as [|r r' l l' (u & Hu & ->) _ IH]; [reflexivity|].
    simpl in Hu. injection Hu as <-. rewrite IH. f_equal.
    unfold merge_row. rewrite (left_id_L ∅ (∪)). reflexivity.
Qed.

Lemma count_tokens_other_columns_witness :
  let self' := snd (count_tokens Fixture.env ["body"] None Fixture.two_rows) in
  count_tokens Fixture.env ["body"] None Fixture.two_rows = (inr tt, self') /\
  Forall2 (fun r r' : gmap string value =>
             forall k,
               (forall field, field ∈ ["body"] ->
                  k <> ("__byte_count__" ++ field)%string /\
                  k <> ("__token_count__" ++ field)%string) ->
               r' !! k = r !! k)
    (rows (dataset Fixture.two_rows)) (rows (dataset self')) /\
  (["body"] = [] -> rows (dataset self') = rows (dataset Fixture.two_rows)).
Proof.
  intros self'.
  assert (Hrun : count_tokens Fixture.env ["body"] None Fixture.two_rows
                 = (inr tt, self')) by reflexivity.
  split; [exact Hrun|].
  exact (count_tokens_other_columns Fixture.env ["body"] None
           Fixture.two_rows self' Hrun).
Defined.

(** ** The PII detector, continued *)

(** X22: The flags of a row depend on the set of listed fields only, not on
    their order or on repetitions. *)
Theorem detect_pii_same_set (env : Capabilities) (fields fields' : list string)
  (sample : gmap string value)
  (Hsame : forall f, f ∈ fields <-> f ∈ fields') :
  detect_pii_ env fields sample = detect_pii_ env fields' sample.
Proof.
  assert (Hfind : forall x, x ∈ collect_filth env sample fields <->
                            x ∈ collect_filth env sample fields').
  { intros x. rewrite !collect_filth_elem. unfold finding_in_row.
    split; intros (f & v & Hin & H); exists f, v;
      (split; [apply Hsame, Hin | exact H]). }
  assert (Htype : forall f,
             in_types f (map detector_name (collect_filth env sample fields))
             = in_types f (map detector_name (collect_filth env sample fields'))).
  { intros f. apply Bool.eq_iff_eq_true. rewrite !in_types_true.
    split; intros (x & Hx & Hn); exists x; (split; [apply Hfind, Hx | exact Hn]). }
  assert (Hany : (0 <? length (collect_filth env sample fields))%nat
                 = (0 <? length (collect_filth env sample fields'))%nat).
  { apply Bool.eq_iff_eq_true. rewrite !nonempty_true.
    split; intros [x Hx]; exists x; apply Hfind, Hx. }
  rewrite !detect_pii_columns. cbv zeta. rewrite !Htype, Hany. reflexivity.
Qed.

Lemma detect_pii_same_set_witness :
  (forall f, f ∈ ["body"; "title"] <-> f ∈ ["title"; "body"; "body"]) /\
  detect_pii_ Fixture.env ["body"; "title"] {[ "body" := VStr (T "a@b") ]}
  = detect_pii_ Fixture.env ["title"; "body"; "body"]
      {[ "body" := VStr (T "a@b") ]}.
Proof.
  assert (H : forall f : string,
             f ∈ ["body"; "title"] <-> f ∈ ["title"; "body"; "body"]).
  { intros f. rewrite !elem_of_cons. rewrite !elem_of_nil. tauto. }
  split; [exact H|].
  exact (detect_pii_same_set Fixture.env _ _ {[ "body" := VStr (T "a@b") ]} H).
Defined.

(** X23: A category flag is never true without [__pii__any], and a row that
    has none of the listed fields gets all four flags false. *)
Theorem detect_pii_consistent (env : Capabilities) (fields : list string)
  (sample : gmap string value) :
  exists email phone credential any,
    detect_pii_ env fields sample
    = inr (pii_columns email phone credential any ∅) /\
    (email = true \/ phone = true \/ credential = true -> any = true) /\
    ((forall f, f ∈ fields -> sample !! f = None) ->
     email = false /\ phone = false /\ credential = false /\ any = false).
Proof.
  do 4 eexists. split; [apply detect_pii_columns|]. cbv zeta.
  assert (Hflag : forall f,
             in_types f (map detector_name (collect_filth env sample fields)) = true ->
             (0 <? length (collect_filth env sample fields))%nat = true).
  { intros f H. apply in_types_true in H as (x & Hx & _).
    apply nonempty_true. eauto. }
  split.
  - intros [H | [H | H]]; exact (Hflag _ H).
  - intros Hnone.
    assert (Hany : (0 <? length (collect_filth env sample fields))%nat = false).
    { apply not_true_is_false. intros H.
      apply nonempty_true in H as [x Hx].
      apply collect_filth_elem in Hx as (f & v & Hf & Hv & _).
      rewrite (Hnone f Hf) in Hv. discriminate. }
    repeat split; try exact Hany;
      (apply not_true_is_false; intros H; apply Hflag in H; congruence).
Qed.

Lemma detect_pii_consistent_witness :
  (forall f, f ∈ ["title"] ->
             ({[ "body" := VStr (T "a@b") ]} : gmap string value) !! f = None) /\
  exists email phone credential any,
    detect_pii_ Fixture.env ["title"] {[ "body" := VStr (T "a@b") ]}
    = inr (pii_columns email phone credential any ∅) /\
    (email = true \/ phone = true \/ credential = true -> any = true) /\
    ((forall f, f ∈ ["title"] ->
                ({[ "body" := VStr (T "a@b") ]} : gmap string value) !! f = None) ->
     email = false /\ phone = false /\ credential = false /\ any = false).
Proof.
  split.
  - intros f Hf. apply list_elem_of_singleton in Hf as ->. reflexivity.
  - exact (detect_pii_consistent Fixture.env ["title"]
             {[ "body" := VStr (T "a@b") ]}).
Defined.

(** X24: The detector keeps every column but its four. *)
Theorem detect_pii_other_columns (env : Capabilities) (fields : list string)
  (self : Galactic) :
  exists self',
    detect_pii env fields self = (inr tt, self') /\
    Forall2 (fun r r' =>
               forall k,
                 k <> "__pii__any" -> k <> "__pii__email" ->
                 k <> "__pii__phone" -> k <> "__pii__credential" ->
                 r' !! k = r !! k)
            (rows (dataset self)) (rows (dataset self')).
Proof.
  unfold detect_pii, bind.
  destruct (map_in_place_pure (detect_pii_ env fields) _ self
              (detect_pii_columns env fields)) as (s & -> & Hrows & _).
  eexists. split; [reflexivity|]. simpl. rewrite Hrows.
  apply Forall2_map_fun. intros r k H1 H2 H3 H4.
  rewrite merge_pii_columns. unfold pii_columns.
  rewrite !lookup_insert_ne by congruence. reflexivity.
Qed.

(** ** Models that cannot be loaded *)

(** X25: Once the checks of the field have passed, a model, generator or
    tokenizer that cannot be loaded makes the operation raise the error
    of the load, before any row is mapped and with the pipeline as it
    was; the counter, which checks nothing, fails so whatever its
    fields are. *)
Theorem load_failure_propagates (env : Capabilities) (self : Galactic)
  (e : exn) :
  (forall field,
     is_Some (features (dataset self) !! field) ->
     load_fasttext env "lid.176.ftz" = inl e ->
     detect_language env field self = (inl e, self)) /\
  (forall field,
     features (dataset self) !! field = Some "string" ->
     load_fasttext env "seo_spam.ftz" = inl e ->
     detect_seo_spam env field self = (inl e, self)) /\
  (forall field language dataset_name,
     features (dataset self) !! field = Some "string" ->
     load_generator env = inl e
     \/ (exists g, load_generator env = inr g) /\
        AutoTokenizer_from_pretrained env "EleutherAI/pythia-70m" = inl e ->
     calc_perplexity env field (Some "pythia") language dataset_name self
     = (inl e, self)) /\
  (forall field lang name,
     features (dataset self) !! field = Some "string" ->
     KenlmModel_from_pretrained env name lang = inl e ->
     calc_perplexity env field (Some "kenlm") (Some (Some lang))
       (Some (Some name)) self
     = (inl e, self)) /\
  (forall fields name,
     AutoTokenizer_from_pretrained env name = inl e ->
     count_tokens env fields (Some name) self = (inl e, self)).
Proof.
  repeat split.
  - intros field Hcol Hload. unfold detect_language, bind, get_dataset, has_column.
    rewrite bool_decide_eq_true_2 by exact Hcol. cbn [negb].
    unfold lift. rewrite Hload. reflexivity.
  - intros field Hcol Hload. unfold detect_seo_spam, bind, get_dataset.
    rewrite Hcol. cbn [String.eqb Ascii.eqb Bool.eqb negb].
    unfold lift. rewrite Hload. reflexivity.
  - intros field language dataset_name Hcol Hload. unfold calc_perplexity.
    change (default "kenlm" (Some "pythia")) with "pythia".
    unfold calc_perplexity_body, bind, get_dataset.
    rewrite Hcol. cbn [String.eqb Ascii.eqb Bool.eqb negb]. unfold lift.
    destruct Hload as [-> | [[g ->] ->]]; reflexivity.
  - intros field lang name Hcol Hload.
    unfold calc_perplexity.
    change (default "kenlm" (Some "kenlm")) with "kenlm".
    change (default (Some "en") (Some (Some lang))) with (Some lang).
    change (default (Some "wikipedia") (Some (Some name))) with (Some name).
    unfold calc_perplexity_body, bind, get_dataset. rewrite Hcol.
    cbn [String.eqb Ascii.eqb Bool.eqb negb]. unfold lift. rewrite Hload.
    reflexivity.
  - intros fields name Hload. unfold count_tokens, bind, lift.
    rewrite Hload. reflexivity.
Qed.

Lemma load_failure_propagates_witness :
  features (dataset Fixture.two_rows) !! "body" = Some "string" /\
  KenlmModel_from_pretrained offline "wikipedia" "en"
  = inl (LoadError "wikipedia") /\
  calc_perplexity offline "body" (Some "kenlm") (Some (Some "en"))
    (Some (Some "wikipedia")) Fixture.two_rows
  = (inl (LoadError "wikipedia"), Fixture.two_rows).
Proof.
  assert (H1 : features (dataset Fixture.two_rows) !! "body" = Some "string")
    by reflexivity.
  assert (H2 : KenlmModel_from_pretrained offline "wikipedia" "en"
               = inl (LoadError "wikipedia")) by reflexivity.
  split; [exact H1|]. split; [exact H2|].
  destruct (load_failure_propagates offline Fixture.two_rows
              (LoadError "wikipedia")) as (_ & _ & _ & H & _).
  exact (H "body" "en" "wikipedia" H1 H2).
Defined.
